(** * The ALB ingress controller: diff cycle, bootstrap resync and dispatch

    A shallow embedding of [controller/controller.go] (the [ALBController]
    methods) and of the start-up checks of [main], with the properties of the
    reconciliation engine proved over it.

    Conventions of the embedding.
    - A Go [string] is a [string] of bytes; [len] is [String.length].
    - A Go slice is a [list].  Every slice of tracked entities in this
      program starts as a nil [var] and only grows by [append], so it is nil
      exactly when it is empty: [nil] is [[]].
    - [*ALBIngress] pointers are modelled by the entity they point to; a
      mutation through the pointer is an update of the element in every
      slice that holds it ([ingressToDelete] strips an entity both in the
      old list and in the list it returns).
    - [int32]/[int64] values are [Z]; the only conversion, [int64(int32)],
      widens and keeps the value.  The float64 metrics hold small counts
      and are [Z] as well.
    - [glog.Fatal], [glog.Exit] and run-time panics end the process: they
      are outcomes of a computation, next to returning.
    - Goroutines started in a loop and joined by a [WaitGroup] are run one
      after the other, in the order in which they are started. *)

From Stdlib Require Import ZArith String List Lia Bool Ascii.
From stdpp Require Import base gmap strings list.
Import ListNotations.

Local Open Scope Z_scope.

(** * The embedding *)

(** ** Kubernetes and AWS objects, as far as the controller reads them *)

(** [error]: the message of a non-nil Go error. *)
Definition error := string.

(** A Go pair [(value, err)] of which exactly one is meaningful. *)
Inductive result (A : Type) : Type :=
| Ok (a : A)
| Err (e : error).
Arguments Ok {A} a.
Arguments Err {A} e.

(** One path of one rule of an ingress. *)
Record IngressRule := {
  Host : string;
  Path : string;
  ServiceName : string;
  ServicePort : Z
}.

(** [extensions.Ingress]: object meta data and rules. *)
Record Ingress := {
  Namespace : string;
  Name : string;
  Annotations : gmap string string;
  Rules : list IngressRule
}.

(** [api.ServicePort]. *)
Record ServicePortT := {
  Port : Z;
  NodePort : Z
}.

(** [api.Service]; the service type is a string in the API. *)
Record Service := {
  Spec_Type : string;
  Spec_Ports : list ServicePortT
}.

Definition ServiceTypeNodePort : string := "NodePort".

(** [elbv2.LoadBalancer], a load balancer found in the cloud. *)
Record LoadBalancer := {
  LoadBalancerArn : string;
  LoadBalancerName : string
}.

(** [ingress.StoreLister]: the contents of the informer caches at the time
    of a call.  [Ingress.List()] is [IngressStore]; [Service.GetByKey k]
    is the lookup of [k] in [ServiceStore]. *)
Record StoreLister := {
  IngressStore : list Ingress;
  ServiceStore : gmap string Service
}.

(** ** Tracked entities *)

(** The intent derived from a spec. *)
Record DesiredState := {
  rules : list IngressRule;
  settings : gmap string string
}.

(** Modelled from the spec: the struct [ALBIngress] is declared outside
    [controller.go], which reads its fields [tainted] and [LoadBalancers]
    and calls [find] and [StripDesiredState] on it.  The fields follow the
    data model of the specification: an identity, the desired state
    (empty once stripped), the handles (ARNs) of the load balancers
    believed to exist, and the taint flag. *)
Record ALBIngress := {
  identity : string;
  desiredState : option DesiredState;
  LoadBalancers : list string;
  tainted : bool
}.

Definition ALBIngressesT := list ALBIngress.

Definition set_tainted (b : bool) (a : ALBIngress) : ALBIngress :=
  {| identity := identity a; desiredState := desiredState a;
     LoadBalancers := LoadBalancers a; tainted := b |}.

Definition set_LoadBalancers (lbs : list string) (a : ALBIngress) : ALBIngress :=
  {| identity := identity a; desiredState := desiredState a;
     LoadBalancers := lbs; tainted := tainted a |}.

(** Modelled from the spec: [StripDesiredState] is defined outside
    [controller.go].  "An entity slated for deletion has desiredState
    cleared (stripped)": the desired state becomes empty, nothing else
    changes. *)
Definition StripDesiredState (a : ALBIngress) : ALBIngress :=
  {| identity := identity a; desiredState := None;
     LoadBalancers := LoadBalancers a; tainted := tainted a |}.

(** Modelled from the spec: [ALBIngressesT.find] is defined outside
    [controller.go].  Matching is by identity: the index of the first
    entity of [a] with the identity of [b], or [-1]. *)
Fixpoint find_from (p : Z) (a : ALBIngressesT) (b : ALBIngress) : Z :=
  match a with
  | [] => -1
  | v :: a' =>
      if String.eqb (identity v) (identity b) then p
      else find_from (p + 1) a' b
  end.

Definition find (a : ALBIngressesT) (b : ALBIngress) : Z := find_from 0 a b.

(** ** The controller and the package-level state *)

(** [ALBController]. *)
Record ALBController := {
  storeLister : StoreLister;
  ALBIngresses : ALBIngressesT;
  ClusterName : string;
  IngressClass : string
}.

Definition set_ALBIngresses (l : ALBIngressesT) (ac : ALBController) : ALBController :=
  {| storeLister := storeLister ac; ALBIngresses := l;
     ClusterName := ClusterName ac; IngressClass := IngressClass ac |}.

Definition set_storeLister (s : StoreLister) (ac : ALBController) : ALBController :=
  {| storeLister := s; ALBIngresses := ALBIngresses ac;
     ClusterName := ClusterName ac; IngressClass := IngressClass ac |}.

Definition set_ClusterName (s : string) (ac : ALBController) : ALBController :=
  {| storeLister := storeLister ac; ALBIngresses := ALBIngresses ac;
     ClusterName := s; IngressClass := IngressClass ac |}.

Definition set_IngressClass (s : string) (ac : ALBController) : ALBController :=
  {| storeLister := storeLister ac; ALBIngresses := ALBIngresses ac;
     ClusterName := ClusterName ac; IngressClass := s |}.

(** A line written by [log.Infof] or [log.Debugf]: the format string and
    its numeric arguments. *)
Inductive LogEntry : Type :=
| Infof (format : string) (args : list Z)
| Debugf (format : string).

(** The package-level variables of [awsutil] that the controller touches:
    the answer of the cloud to [ALBsvc.DescribeLoadBalancers], and the
    metrics. *)
Record Awsutil := {
  DescribeLoadBalancers : string -> result (list LoadBalancer);
  OnUpdateCount : Z;
  ReloadCount : Z;
  ManagedIngresses : Z
}.

(** The state a method of the controller runs in. *)
Record State := {
  this : ALBController;
  awsutil : Awsutil;
  logged : list LogEntry
}.

(** ** Computations *)

(** How a call ends: it returns, the process exits ([glog.Fatal] with
    status 255, [glog.Exit] with status 1), or it panics. *)
Inductive outcome (A : Type) : Type :=
| Returns (a : A)
| Exits (status : Z) (msg : string)
| Panics (msg : string).
Arguments Returns {A} a.
Arguments Exits {A} status msg.
Arguments Panics {A} msg.

Definition M (A : Type) : Type := State -> outcome (A * State).

Definition ret {A} (a : A) : M A := fun st => Returns (a, st).

Definition bind {A B} (m : M A) (f : A -> M B) : M B :=
  fun st =>
    match m st with
    | Returns (a, st') => f a st'
    | Exits c msg => Exits c msg
    | Panics msg => Panics msg
    end.

Notation "'do' x <- m ; k" := (bind m (fun x => k))
  (at level 10, x name, m at level 100, k at level 200).
Notation "'run' m ; k" := (bind m (fun _ => k))
  (at level 10, m at level 100, k at level 200).

Definition get_ac : M ALBController := fun st => Returns (this st, st).

Definition put_ac (ac : ALBController) : M unit :=
  fun st => Returns (tt, {| this := ac; awsutil := awsutil st; logged := logged st |}).

Definition get_awsutil : M Awsutil := fun st => Returns (awsutil st, st).

Definition put_awsutil (a : Awsutil) : M unit :=
  fun st => Returns (tt, {| this := this st; awsutil := a; logged := logged st |}).

Definition log_line (e : LogEntry) : M unit :=
  fun st => Returns (tt, {| this := this st; awsutil := awsutil st;
                            logged := logged st ++ [e] |}).

(** [glog.Fatal(err)]. *)
Definition glog_Fatal {A} (err : error) : M A := fun _ => Exits 255 err.

Definition panic {A} (msg : string) : M A := fun _ => Panics msg.

Definition OnUpdateCount_Add (d : Z) : M unit :=
  do a <- get_awsutil;
  put_awsutil {| DescribeLoadBalancers := DescribeLoadBalancers a;
                 OnUpdateCount := OnUpdateCount a + d;
                 ReloadCount := ReloadCount a;
                 ManagedIngresses := ManagedIngresses a |}.

Definition ReloadCount_Add (d : Z) : M unit :=
  do a <- get_awsutil;
  put_awsutil {| DescribeLoadBalancers := DescribeLoadBalancers a;
                 OnUpdateCount := OnUpdateCount a;
                 ReloadCount := ReloadCount a + d;
                 ManagedIngresses := ManagedIngresses a |}.

Definition ManagedIngresses_Set (v : Z) : M unit :=
  do a <- get_awsutil;
  put_awsutil {| DescribeLoadBalancers := DescribeLoadBalancers a;
                 OnUpdateCount := OnUpdateCount a;
                 ReloadCount := ReloadCount a;
                 ManagedIngresses := v |}.

(** [len] of a slice. *)
Definition len {A} (l : list A) : Z := Z.of_nat (length l).

(** ** Functions of the controller's other files

    [OnUpdate], [assembleIngresses] and [Reload] call three functions that
    are defined next to [ALBIngress]: the two constructors and the
    convergence of one entity.  Their bodies stay open here; every theorem
    below holds for all of them.
    - [NewALBIngressFromIngress ingress ac] returns a pointer (nil or
      not) and an error (nil or not); it reads the controller;
    - [NewALBIngressFromLoadBalancer clusterName lb] returns the entity and
      [ok], here [Some] entity when [ok] is true;
    - [Reconcile] converges one entity in place; the call is a statement,
      so whether the convergence failed (the second component) is not
      read by the caller. *)
Class Collaborators := {
  NewALBIngressFromIngress : Ingress -> ALBController -> option ALBIngress * option error;
  NewALBIngressFromLoadBalancer : string -> LoadBalancer -> option ALBIngress;
  Reconcile : ALBIngress -> ALBIngress * option error
}.

(** [ingress.Configuration]: the argument of [OnUpdate], which the method
    does not read. *)
Record Configuration := {
  Backends : list string
}.

(** A loop over a slice whose body only acts on the state. *)
Fixpoint for_each {A} (body : A -> M unit) (l : list A) : M unit :=
  match l with
  | [] => ret tt
  | x :: l' => run body x; for_each body l'
  end.

(** ** [validIngress] *)

Definition ingress_class_annotation : string := "kubernetes.io/ingress.class".

(** Reading a Go map at a missing key yields the empty string. *)
Definition annotation (i : Ingress) (key : string) : string :=
  default EmptyString (Annotations i !! key).

Definition validIngress (ac : ALBController) (i : Ingress) : bool :=
  if String.eqb (IngressClass ac) "" then true
  else if String.eqb (annotation i ingress_class_annotation) (IngressClass ac) then true
  else false.

(** ** [GetServiceNodePort] *)

(** The loop over [Spec.Ports]: the node port of the first port whose
    [Port] is [backendPort]. *)
Fixpoint GetServiceNodePort_range (ports : list ServicePortT) (backendPort : Z) : option Z :=
  match ports with
  | [] => None
  | p :: ports' =>
      if Port p =? backendPort then Some (NodePort p)
      else GetServiceNodePort_range ports' backendPort
  end.

Definition GetServiceNodePort (ac : ALBController) (serviceKey : string) (backendPort : Z)
  : result Z :=
  match ServiceStore (storeLister ac) !! serviceKey with
  | None => Err ("Unable to find the " +:+ serviceKey +:+ " service")
  | Some item =>
      if negb (String.eqb (Spec_Type item) ServiceTypeNodePort)
      then Err (serviceKey +:+ " service is not of type NodePort")
      else
        match GetServiceNodePort_range (Spec_Ports item) backendPort with
        | Some nodePort => Ok nodePort
        | None => Err ("Unable to find a port defined in the " +:+ serviceKey +:+ " service")
        end
  end.

(** ** [ingressToDelete] *)

(** The loop over the old list.  [done] are the entities already visited
    (an entity that is stripped is stripped in place, so the old list
    changes with it), [deleteableIngress] the list being built. *)
Fixpoint ingressToDelete_range
    (newList : ALBIngressesT) (todo done deleteableIngress : ALBIngressesT)
  : ALBIngressesT * ALBIngressesT :=
  match todo with
  | [] => (done, deleteableIngress)
  | ingress :: todo' =>
      if tainted ingress then
        ingressToDelete_range newList todo' (done ++ [ingress]) deleteableIngress
      else if find newList ingress <? 0 then
        if 0 <? len (LoadBalancers ingress) then
          let ingress := StripDesiredState ingress in
          ingressToDelete_range newList todo' (done ++ [ingress]) (deleteableIngress ++ [ingress])
        else ingressToDelete_range newList todo' (done ++ [ingress]) deleteableIngress
      else ingressToDelete_range newList todo' (done ++ [ingress]) deleteableIngress
  end.

Definition ingressToDelete (newList : ALBIngressesT) : M ALBIngressesT :=
  do ac <- get_ac;
  let '(old, deleteableIngress) := ingressToDelete_range newList (ALBIngresses ac) [] [] in
  run put_ac (set_ALBIngresses old ac);
  ret deleteableIngress.

Section Controller.

Context `{Collaborators}.

(** ** [assembleIngresses] *)

(** The body of the goroutine started for one load balancer. *)
Definition assembleIngresses_go (loadBalancer : LoadBalancer) : M unit :=
  do ac <- get_ac;
  match NewALBIngressFromLoadBalancer (ClusterName ac) loadBalancer with
  | None => ret tt
  | Some albIngress =>
      let i := find (ALBIngresses ac) albIngress in
      if 0 <=? i then
        match ALBIngresses ac !! Z.to_nat i with
        | None => panic "index out of range"
        | Some albIngress =>
            match LoadBalancers albIngress with
            | [] => panic "index out of range"
            | lb0 :: _ =>
                let albIngress :=
                  set_LoadBalancers (LoadBalancers albIngress ++ [lb0]) albIngress in
                put_ac (set_ALBIngresses (<[Z.to_nat i := albIngress]> (ALBIngresses ac)) ac)
            end
        end
      else put_ac (set_ALBIngresses (ALBIngresses ac ++ [albIngress]) ac)
  end.

Definition assembleIngresses : M unit :=
  run log_line (Infof "Build up list of existing ingresses" []);
  do ac <- get_ac;
  run put_ac (set_ALBIngresses [] ac);
  do aws <- get_awsutil;
  match DescribeLoadBalancers aws (ClusterName ac) with
  | Err err => glog_Fatal err
  | Ok loadBalancers =>
      run for_each assembleIngresses_go loadBalancers;
      do ac <- get_ac;
      log_line (Infof "Assembled %d ingresses from existing AWS resources"
                      [len (ALBIngresses ac)])
  end.

(** ** [OnUpdate] *)

(** The loop over the ingresses of the store; [ALBIngresses] is the list
    of this invocation. *)
Fixpoint OnUpdate_range (ac : ALBController) (items : list Ingress) (ALBIngresses : ALBIngressesT)
  : ALBIngressesT :=
  match items with
  | [] => ALBIngresses
  | ingResource :: items' =>
      if negb (validIngress ac ingResource) then OnUpdate_range ac items' ALBIngresses
      else
        match NewALBIngressFromIngress ingResource ac with
        | (None, _) => OnUpdate_range ac items' ALBIngresses
        | (Some ALBIngress, err) =>
            let ALBIngress :=
              match err with
              | Some _ => set_tainted true ALBIngress
              | None => ALBIngress
              end in
            OnUpdate_range ac items' (ALBIngresses ++ [ALBIngress])
        end
  end.

Definition OnUpdate (ingressConfiguration : Configuration) : M (option error) :=
  do ac <- get_ac;
  run (match ALBIngresses ac with
       | [] => assembleIngresses
       | _ :: _ => ret tt
       end);
  run OnUpdateCount_Add 1;
  run log_line (Debugf "OnUpdate event seen by ALB ingress controller.");
  do ac <- get_ac;
  let ALBIngresses := OnUpdate_range ac (IngressStore (storeLister ac)) [] in
  do deletable <- ingressToDelete ALBIngresses;
  let ALBIngresses :=
    if 0 <? len deletable then ALBIngresses ++ deletable else ALBIngresses in
  run ManagedIngresses_Set (len ALBIngresses);
  do ac <- get_ac;
  run put_ac (set_ALBIngresses ALBIngresses ac);
  ret None.

(** ** [Reload] *)

(** One goroutine per entity, each converging its own entity in place. *)
Definition Reload (data : list Byte.byte) : M (list Byte.byte * bool * option error) :=
  run ReloadCount_Add 1;
  do ac <- get_ac;
  run put_ac (set_ALBIngresses (map (fun ingress => fst (Reconcile ingress)) (ALBIngresses ac)) ac);
  ret ([], true, None).

End Controller.

(** ** Start-up: [NewALBController], [ConfigureFlags] and [main] *)

(** [config.Config]. *)
Record Config := {
  Config_ClusterName : string;
  AWSDebug : bool
}.

(** The environment variables [main] reads; an unset variable reads as the
    empty string. *)
Record Environ := {
  LOG_LEVEL : string;
  AWS_DEBUG : string;
  CLUSTER_NAME : string
}.

(** [strconv.ParseBool] with its error dropped, as [main] calls it. *)
Definition ParseBool (s : string) : bool :=
  existsb (String.eqb s) ["1"; "t"; "T"; "TRUE"; "true"; "True"]%string.

(** [NewALBController]: a controller that only knows its cluster name (the
    AWS sessions it opens are not part of the state modelled here). *)
Definition NewALBController (conf : Config) : ALBController :=
  {| storeLister := {| IngressStore := []; ServiceStore := ∅ |};
     ALBIngresses := [];
     ClusterName := Config_ClusterName conf;
     IngressClass := "" |}.

(** [ConfigureFlags]: the cluster name becomes the value of the
    [cluster-name] flag (the empty string when the flag is not given). *)
Definition ConfigureFlags (cluster_name_flag : string) (ac : ALBController) : ALBController :=
  set_ClusterName cluster_name_flag ac.

(** [SetListers]. *)
Definition SetListers (lister : StoreLister) (ac : ALBController) : ALBController :=
  set_storeLister lister ac.

(** The generic ingress controller of [k8s.io/ingress]: [main] only asks
    it for the ingress class and starts it. *)
Record GenericController := {
  ic_IngressClass : string
}.

(** [ingresscontroller.NewIngressController] belongs to the ingress core
    library.  It is handed the [ALBController] and may call its methods
    ([ConfigureFlags], [SetListers]); it is left open. *)
Class IngressCore := {
  NewIngressController : ALBController -> GenericController * ALBController
}.

(** How [main] ends: [glog.Exit] before the controller is started, or
    [ic.Start()] is reached with the controller [ac]. *)
Inductive Startup : Type :=
| ExitsBeforeStart (status : Z) (msg : string)
| Starts (ac : ALBController).

Section Main.

Context `{IngressCore}.

(** The controller as it is when [main] checks the cluster name. *)
Definition main_controller (env : Environ) : ALBController :=
  let awsDebug := ParseBool (AWS_DEBUG env) in
  let conf := {| Config_ClusterName := CLUSTER_NAME env; AWSDebug := awsDebug |} in
  let ac := NewALBController conf in
  let '(ic, ac) := NewIngressController ac in
  set_IngressClass (ic_IngressClass ic) ac.

Definition main (env : Environ) : Startup :=
  let ac := main_controller env in
  if String.eqb (ClusterName ac) "" then
    ExitsBeforeStart 1 "A cluster name must be defined"
  else if 11 <? Z.of_nat (String.length (ClusterName ac)) then
    ExitsBeforeStart 1 "Cluster name must be 11 characters or less"
  else Starts ac.

End Main.

(** * Notions used in the statements *)

(** ** Characters of a cluster name *)

(** The characters of a UTF-8 string are the bytes that are not
    continuation bytes [10xxxxxx]; Go's [len] counts all bytes. *)
Definition is_continuation_byte (c : ascii) : bool :=
  Z.land (Z.of_N (N_of_ascii c)) 192 =? 128.

Fixpoint utf8_characters (s : string) : nat :=
  match s with
  | EmptyString => 0%nat
  | String c s' =>
      ((if is_continuation_byte c then 0 else 1) + utf8_characters s')%nat
  end.

(** ** The deletion pass *)

(** The entities of the old list that [ingressToDelete] strips and hands
    back: not tainted, identity not in the new list, at least one load
    balancer. *)
Definition marked_for_teardown (newList : ALBIngressesT) (ingress : ALBIngress) : bool :=
  negb (tainted ingress) && (find newList ingress <? 0) && (0 <? len (LoadBalancers ingress)).

(** The old list after the pass, and the list the pass returns. *)
Definition stripped_in_place (newList old : ALBIngressesT) : ALBIngressesT :=
  map (fun e => if marked_for_teardown newList e then StripDesiredState e else e) old.

Definition deletable_of (newList old : ALBIngressesT) : ALBIngressesT :=
  map StripDesiredState (List.filter (marked_for_teardown newList) old).

(** ** The invariant of a tracked set *)

(** Identities are unique within a tracked-entity set. *)
Definition unique_identities (l : ALBIngressesT) : Prop :=
  List.NoDup (map identity l).

(** ** The bootstrap as a function of the entities it builds *)

(** What the goroutine of [assembleIngresses] does to the tracked list
    with the entity [a] built for its load balancer: [None] is the
    index-out-of-range panic. *)
Definition merge (l : ALBIngressesT) (a : ALBIngress) : option ALBIngressesT :=
  if 0 <=? find l a then
    match l !! Z.to_nat (find l a) with
    | None => None
    | Some b =>
        match LoadBalancers b with
        | [] => None
        | lb0 :: _ =>
            Some (<[Z.to_nat (find l a) :=
                      set_LoadBalancers (LoadBalancers b ++ [lb0]) b]> l)
        end
    end
  else Some (l ++ [a]).

Fixpoint merge_all (l : ALBIngressesT) (built : list ALBIngress) : option ALBIngressesT :=
  match built with
  | [] => Some l
  | a :: built' =>
      match merge l a with
      | Some l' => merge_all l' built'
      | None => None
      end
  end.





(** A state with another tracked list. *)
Definition with_ALBIngresses (l : ALBIngressesT) (st : State) : State :=
  {| this := set_ALBIngresses l (this st); awsutil := awsutil st; logged := logged st |}.

(** ** What a diff compares *)

(** What C8 compares between two next sets: the identity and the
    desired-state content of each entity. *)
Definition view (e : ALBIngress) : string * option DesiredState :=
  (identity e, desiredState e).

(** ** Runs of the bootstrap, and what the environment changes *)

(** The calls of [assembleIngresses] a state has seen: its first log line. *)
Definition is_bootstrap_line (e : LogEntry) : bool :=
  match e with
  | Infof format _ => String.eqb format "Build up list of existing ingresses"
  | Debugf _ => false
  end.

Definition bootstrap_runs (st : State) : nat :=
  length (List.filter is_bootstrap_line (logged st)).

(** What the environment has changed when a notification arrives: the
    contents of the store and the answer of the cloud. *)
Record Notification := {
  seen_store : StoreLister;
  seen_cloud : string -> result (list LoadBalancer);
  seen_config : Configuration
}.

Definition arrive (n : Notification) (st : State) : State :=
  {| this := set_storeLister (seen_store n) (this st);
     awsutil := {| DescribeLoadBalancers := seen_cloud n;
                   OnUpdateCount := OnUpdateCount (awsutil st);
                   ReloadCount := ReloadCount (awsutil st);
                   ManagedIngresses := ManagedIngresses (awsutil st) |};
     logged := logged st |}.

Section Phases.

Context `{Collaborators}.

(** ** The phases of [OnUpdate] and of [assembleIngresses] *)

(** The first statement of [OnUpdate]: bootstrap when the tracked set is nil. *)
Definition bootstrap_phase : M unit :=
  do ac <- get_ac;
  match ALBIngresses ac with
  | [] => assembleIngresses
  | _ :: _ => ret tt
  end.

(** The list built from the ingresses of the store. *)
Definition newSet (ac : ALBController) : ALBIngressesT :=
  OnUpdate_range ac (IngressStore (storeLister ac)) [].

(** The list [OnUpdate] stores: the new list followed by the deletable
    entities of the old one. *)
Definition nextSet (ac : ALBController) : ALBIngressesT :=
  newSet ac ++ deletable_of (newSet ac) (ALBIngresses ac).

(** The state [OnUpdate] leaves when it starts in [st1] with the bootstrap
    behind it. *)
Definition diff_state (st1 : State) : State :=
  {| this := set_ALBIngresses (nextSet (this st1)) (this st1);
     awsutil :=
       {| DescribeLoadBalancers := DescribeLoadBalancers (awsutil st1);
          OnUpdateCount := OnUpdateCount (awsutil st1) + 1;
          ReloadCount := ReloadCount (awsutil st1);
          ManagedIngresses := len (nextSet (this st1)) |};
     logged := logged st1 ++ [Debugf "OnUpdate event seen by ALB ingress controller."] |}.

(** The entity one ingress of the store adds to the new list, if any. *)
Definition built (ac : ALBController) (ingResource : Ingress) : option ALBIngress :=
  if validIngress ac ingResource then
    match NewALBIngressFromIngress ingResource ac with
    | (None, _) => None
    | (Some e, Some _) => Some (set_tainted true e)
    | (Some e, None) => Some e
    end
  else None.

(** The state in which the goroutines of [assembleIngresses] start. *)
Definition bootstrap_start (st : State) : State :=
  {| this := set_ALBIngresses [] (this st);
     awsutil := awsutil st;
     logged := logged st ++ [Infof "Build up list of existing ingresses" []] |}.

(** The state [assembleIngresses] returns in when the goroutines are done
    in [st1]. *)
Definition bootstrap_end (st1 : State) : State :=
  {| this := this st1;
     awsutil := awsutil st1;
     logged := logged st1 ++ [Infof "Assembled %d ingresses from existing AWS resources"
                                    [len (ALBIngresses (this st1))]] |}.

(** The entities [NewALBIngressFromLoadBalancer] builds for a listing, in
    the order of the listing. *)
Definition discovered (clusterName : string) (lbs : list LoadBalancer) : list ALBIngress :=
  omap (NewALBIngressFromLoadBalancer clusterName) lbs.

(** ** Runs of cycles *)

(** One cycle of the control flow: the diff, then the dispatch. *)
Definition cycle (n : Notification) : M unit :=
  fun st =>
    match OnUpdate (seen_config n) (arrive n st) with
    | Returns (_, st1) =>
        match Reload [] st1 with
        | Returns (_, st2) => Returns (tt, st2)
        | Exits c msg => Exits c msg
        | Panics msg => Panics msg
        end
    | Exits c msg => Exits c msg
    | Panics msg => Panics msg
    end.

(** The states after each completed cycle of a run; the run ends when the
    process does. *)
Fixpoint cycles (ns : list Notification) (st : State) : list State :=
  match ns with
  | [] => []
  | n :: ns' =>
      match cycle n st with
      | Returns (_, st') => st' :: cycles ns' st'
      | Exits _ _ | Panics _ => []
      end
  end.

End Phases.

(** ** A concrete controller

    One implementation of the open functions, used to run the controller on
    concrete inputs. *)

Module Scenario.

(** Modelled from the spec: [identityOf] is a deterministic function of
    namespace and name. *)
Definition identityOf (i : Ingress) : string :=
  Namespace i +:+ "/" +:+ Name i.

(** The load balancers the controller already tracks for an identity. *)
Fixpoint known_LoadBalancers (ident : string) (l : ALBIngressesT) : list string :=
  match l with
  | [] => []
  | e :: l' =>
      if String.eqb (identity e) ident then LoadBalancers e
      else known_LoadBalancers ident l'
  end.

(** The first failure among the port resolutions of the rules. *)
Fixpoint resolve_ports (ac : ALBController) (ns : string) (rs : list IngressRule) : option error :=
  match rs with
  | [] => None
  | r :: rs' =>
      match GetServiceNodePort ac (ns +:+ "/" +:+ ServiceName r) (ServicePort r) with
      | Err e => Some e
      | Ok _ => resolve_ports ac ns rs'
      end
  end.

(** Modelled from the spec: the Desired-State Builder, which lives outside
    [controller.go].  A spec without backend linkage is ignored (nil
    entity); a spec whose port resolution fails yields an entity together
    with the error; otherwise a plain entity.  The identity and the desired
    state come from the spec alone. *)
Definition build (i : Ingress) (ac : ALBController) : option ALBIngress * option error :=
  match Rules i with
  | [] => (None, Some "no backend"%string)
  | _ :: _ =>
      (Some {| identity := identityOf i;
               desiredState := Some {| rules := Rules i; settings := Annotations i |};
               LoadBalancers := known_LoadBalancers (identityOf i) (ALBIngresses ac);
               tainted := false |},
       resolve_ports ac (Namespace i) (Rules i))
  end.

(** The part of a string before the first occurrence of a character. *)
Fixpoint before (c : ascii) (s : string) : string :=
  match s with
  | EmptyString => EmptyString
  | String a s' => if Ascii.eqb a c then EmptyString else String a (before c s')
  end.

(** Modelled from the spec: the reverse of the naming convention, which
    lives outside [controller.go].  A managed load balancer is named
    cluster name, dash, identity, and then possibly a hash sign and a
    discriminator; the entity recovered from it has no desired state and
    holds the handle of that load balancer. *)
Definition from_LoadBalancer (clusterName : string) (lb : LoadBalancer) : option ALBIngress :=
  let prefix := clusterName +:+ "-" in
  if String.prefix prefix (LoadBalancerName lb) then
    Some {| identity :=
              before "#" (String.substring (String.length prefix)
                            (String.length (LoadBalancerName lb) - String.length prefix)
                            (LoadBalancerName lb));
            desiredState := None;
            LoadBalancers := [LoadBalancerArn lb];
            tainted := false |}
  else None.

(** Modelled from the spec: Entity Convergence, which lives outside
    [controller.go].  An entity without desired state is torn down; an
    entity with desired state and no load balancer gets one; the
    convergence of a tainted entity fails and changes nothing. *)
Definition converge (e : ALBIngress) : ALBIngress * option error :=
  if tainted e then (e, Some "tainted"%string)
  else
    match desiredState e, LoadBalancers e with
    | None, _ => (set_LoadBalancers [] e, None)
    | Some _, [] => (set_LoadBalancers ["arn:" +:+ identity e] e, None)
    | Some _, _ :: _ => (e, None)
    end.

Definition collaborators : Collaborators :=
  {| NewALBIngressFromIngress := build;
     NewALBIngressFromLoadBalancer := from_LoadBalancer;
     Reconcile := converge |}.

(** Tracked entities of the scenarios of the specification. *)
Definition foo : ALBIngress :=
  {| identity := "ns/foo"; desiredState := Some {| rules := []; settings := ∅ |};
     LoadBalancers := ["arn1"%string]; tainted := false |}.

Definition gone : ALBIngress :=
  {| identity := "ns/gone"; desiredState := Some {| rules := []; settings := ∅ |};
     LoadBalancers := []; tainted := false |}.

Definition bar : ALBIngress :=
  {| identity := "ns/bar"; desiredState := Some {| rules := []; settings := ∅ |};
     LoadBalancers := ["arn2"%string]; tainted := true |}.

(** A cloud that lists the given load balancers for every cluster. *)
Definition cloud (lbs : list LoadBalancer) : Awsutil :=
  {| DescribeLoadBalancers := fun _ => Ok lbs;
     OnUpdateCount := 0; ReloadCount := 0; ManagedIngresses := 0 |}.

(** A controller of cluster [k8s] that tracks [tracked] and sees the
    ingresses [specs] and no service. *)
Definition controller (cls : string) (specs : list Ingress) (tracked : ALBIngressesT)
  : ALBController :=
  {| storeLister := {| IngressStore := specs; ServiceStore := ∅ |};
     ALBIngresses := tracked;
     ClusterName := "k8s";
     IngressClass := cls |}.

Definition state (ac : ALBController) (aws : Awsutil) : State :=
  {| this := ac; awsutil := aws; logged := [] |}.

Definition no_config : Configuration := {| Backends := [] |}.

(** Two load balancers of [ns/foo] left in the cloud. *)
Definition lb_a : LoadBalancer :=
  {| LoadBalancerArn := "arn-a"; LoadBalancerName := "k8s-ns/foo#a" |}.

Definition lb_b : LoadBalancer :=
  {| LoadBalancerArn := "arn-b"; LoadBalancerName := "k8s-ns/foo#b" |}.

(** A cold controller in front of a cloud that lists both. *)
Definition cold_two_lbs : State :=
  state (controller "" [] []) (cloud [lb_a; lb_b]).

(** A cloud whose listing call fails. *)
Definition failing_cloud : Awsutil :=
  {| DescribeLoadBalancers := fun _ => Err "RequestError: send request failed";
     OnUpdateCount := 0; ReloadCount := 0; ManagedIngresses := 0 |}.

Definition cold_failing_cloud : State :=
  state (controller "" [] []) failing_cloud.

(** An ingress of class [ALB], and one of class [alb]. *)
Definition upper_ingress : Ingress :=
  {| Namespace := "ns"; Name := "upper";
     Annotations := {[ ingress_class_annotation := "ALB"%string ]};
     Rules := [{| Host := "a.example.com"; Path := "/"; ServiceName := "web";
                  ServicePort := 80 |}] |}.

Definition lower_ingress : Ingress :=
  {| Namespace := "ns"; Name := "lower";
     Annotations := {[ ingress_class_annotation := "alb"%string ]};
     Rules := [{| Host := "b.example.com"; Path := "/"; ServiceName := "web";
                  ServicePort := 80 |}] |}.

(** A NodePort service with two ports named 80, and a ClusterIP service. *)
Definition web_service : Service :=
  {| Spec_Type := "NodePort";
     Spec_Ports := [{| Port := 443; NodePort := 30443 |};
                    {| Port := 80; NodePort := 30080 |};
                    {| Port := 80; NodePort := 31080 |}] |}.

Definition internal_service : Service :=
  {| Spec_Type := "ClusterIP"; Spec_Ports := [{| Port := 80; NodePort := 0 |}] |}.

Definition with_services : ALBController :=
  {| storeLister :=
       {| IngressStore := [];
          ServiceStore := {[ "ns/web"%string := web_service;
                             "ns/internal"%string := internal_service ]} |};
     ALBIngresses := [];
     ClusterName := "k8s";
     IngressClass := "alb" |}.

(** An ingress core that parses the flag [cluster-name] with the given
    value, hands it to [ConfigureFlags], sets empty listers, and reports
    the class [alb]. *)
Definition ingress_core (cluster_name_flag : string) : IngressCore :=
  {| NewIngressController := fun ac =>
       ({| ic_IngressClass := "alb" |},
        SetListers {| IngressStore := []; ServiceStore := ∅ |}
          (ConfigureFlags cluster_name_flag ac)) |}.

Definition no_env : Environ :=
  {| LOG_LEVEL := ""; AWS_DEBUG := ""; CLUSTER_NAME := "" |}.

(** The spec [ns/lower] refers to a service the store does not have;
    [bar] is tracked. *)
Definition unresolved_spec : State :=
  state (controller "" [lower_ingress] [bar]) (cloud []).

(** A cold controller in an empty cluster in front of an empty cloud. *)
Definition cold_empty : State :=
  state (controller "" [] []) (cloud []).

(** The spec [ns/lower] in the store; [foo], [gone] and [bar] tracked. *)
Definition churn : State :=
  state (controller "" [lower_ingress] [foo; gone; bar]) (cloud []).

(** No spec in the store; only the tainted [bar] tracked. *)
Definition bar_tracked : State :=
  state (controller "" [] [bar]) (cloud []).

(** No spec in the store; [foo], [gone] and [bar] tracked. *)
Definition three_tracked : State :=
  state (controller "" [] [foo; gone; bar]) (cloud []).

(** Notifications of the scenarios: nothing in the store and nothing in
    the cloud; one spec in the store. *)
Definition quiet : Notification :=
  {| seen_store := {| IngressStore := []; ServiceStore := ∅ |};
     seen_cloud := fun _ => Ok [];
     seen_config := no_config |}.

Definition one_spec : Notification :=
  {| seen_store := {| IngressStore := [lower_ingress]; ServiceStore := ∅ |};
     seen_cloud := fun _ => Ok [];
     seen_config := no_config |}.




(** The spec [ns/lower] in the store and its entity tracked. *)
Definition lower_tracked : ALBIngress :=
  {| identity := "ns/lower"; desiredState := None;
     LoadBalancers := ["arn3"%string]; tainted := false |}.

Definition steady : State :=
  state (controller "" [lower_ingress] [lower_tracked]) (cloud []).

(** The spec [ns/lower] twice in the store. *)
Definition twins : State :=
  state (controller "" [lower_ingress; lower_ingress] [bar]) (cloud []).

End Scenario.

(** * Lemmas *)

(** ** Small facts about the model *)

Lemma utf8_characters_le (s : string) :
  (utf8_characters s <= String.length s)%nat.
Proof.
  induction s as [|c s IH]; simpl; [lia|].
  destruct (is_continuation_byte c); lia.
Qed.

Lemma len_pos_cons {A} (l : list A) : (0 <? len l) = true <-> l <> [].
Proof.
  unfold len. rewrite Z.ltb_lt. destruct l as [|x l]; simpl length.
  - split; [lia | congruence].
  - split; [intros _; discriminate | lia].
Qed.

Lemma len_nil_false {A} (l : list A) : (0 <? len l) = false <-> l = [].
Proof.
  unfold len. rewrite Z.ltb_ge. destruct l as [|x l]; simpl length.
  - split; [reflexivity | lia].
  - split; [lia | discriminate].
Qed.

(** ** The class filter *)

Lemma validIngress_spec (ac : ALBController) (i : Ingress) :
  validIngress ac i = true <->
  IngressClass ac = ""%string \/
  Annotations i !! ingress_class_annotation = Some (IngressClass ac).
Proof.
  unfold validIngress, annotation.
  destruct (String.eqb (IngressClass ac) "") eqn:Hcls.
  - apply String.eqb_eq in Hcls. tauto.
  - apply String.eqb_neq in Hcls.
    destruct (String.eqb (default ""%string (Annotations i !! ingress_class_annotation))
                         (IngressClass ac)) eqn:Hc.
    + apply String.eqb_eq in Hc. split; [intros _; right | reflexivity].
      destruct (Annotations i !! ingress_class_annotation) as [c|]; simpl in Hc;
        congruence.
    + apply String.eqb_neq in Hc. split; [discriminate|].
      intros [Hempty | Hsome]; [contradiction|].
      rewrite Hsome in Hc. simpl in Hc. congruence.
Qed.

(** ** [find] matches by identity *)

Lemma find_from_absent (p : Z) (a : ALBIngressesT) (b : ALBIngress) :
  0 <= p ->
  (find_from p a b < 0 <-> ~ In (identity b) (map identity a)).
Proof.
  revert p. induction a as [|v a IH]; intros p Hp; simpl.
  - split; [intros _ []| lia].
  - destruct (String.eqb (identity v) (identity b)) eqn:Hv.
    + apply String.eqb_eq in Hv. split; [lia | intros Hn; exfalso; apply Hn; now left].
    + apply String.eqb_neq in Hv. rewrite IH by lia. tauto.
Qed.

Lemma find_absent (a : ALBIngressesT) (b : ALBIngress) :
  find a b < 0 <-> ~ In (identity b) (map identity a).
Proof. apply find_from_absent. lia. Qed.



(** ** The deletion pass *)

Lemma ingressToDelete_range_eq (newList todo done deleteableIngress : ALBIngressesT) :
  ingressToDelete_range newList todo done deleteableIngress =
  (done ++ map (fun e => if marked_for_teardown newList e then StripDesiredState e else e) todo,
   deleteableIngress ++ map StripDesiredState (List.filter (marked_for_teardown newList) todo)).
Proof.
  revert done deleteableIngress.
  induction todo as [|e todo IH]; intros done del; simpl.
  - now rewrite !app_nil_r.
  - unfold marked_for_teardown at 1 3.
    destruct (tainted e); simpl.
    + rewrite IH, <- !app_assoc. reflexivity.
    + destruct (find newList e <? 0); simpl.
      * destruct (0 <? len (LoadBalancers e)); simpl;
          rewrite IH, <- !app_assoc; reflexivity.
      * rewrite IH, <- !app_assoc. reflexivity.
Qed.

Lemma ingressToDelete_eq (newList : ALBIngressesT) (st : State) :
  ingressToDelete newList st =
  Returns (deletable_of newList (ALBIngresses (this st)),
           {| this := set_ALBIngresses
                        (stripped_in_place newList (ALBIngresses (this st))) (this st);
              awsutil := awsutil st; logged := logged st |}).
Proof.
  unfold ingressToDelete, bind, get_ac, put_ac, ret.
  rewrite ingressToDelete_range_eq. reflexivity.
Qed.

(** ** The phases of [OnUpdate] *)

Section Cycle.

Context `{Collaborators}.

Lemma bind_eq {A B} (m : M A) (f : A -> M B) (st : State) :
  bind m f st =
  match m st with
  | Returns (a, st') => f a st'
  | Exits c msg => Exits c msg
  | Panics msg => Panics msg
  end.
Proof. reflexivity. Qed.

Lemma append_deletable (new deletable : ALBIngressesT) :
  (if 0 <? len deletable then new ++ deletable else new) = new ++ deletable.
Proof.
  destruct (0 <? len deletable) eqn:Hlen; [reflexivity|].
  apply len_nil_false in Hlen. subst. now rewrite app_nil_r.
Qed.

Lemma OnUpdate_eq (cfg : Configuration) (st : State) :
  OnUpdate cfg st =
  match bootstrap_phase st with
  | Returns (_, st1) => Returns (None, diff_state st1)
  | Exits c msg => Exits c msg
  | Panics msg => Panics msg
  end.
Proof.
  assert (Hrest : forall st1 : State,
    (run OnUpdateCount_Add 1;
     run log_line (Debugf "OnUpdate event seen by ALB ingress controller.");
     do ac <- get_ac;
     let ALBIngresses := OnUpdate_range ac (IngressStore (storeLister ac)) [] in
     do deletable <- ingressToDelete ALBIngresses;
     let ALBIngresses :=
       if 0 <? len deletable then ALBIngresses ++ deletable else ALBIngresses in
     run ManagedIngresses_Set (len ALBIngresses);
     do ac <- get_ac;
     run put_ac (set_ALBIngresses ALBIngresses ac);
     ret (@None error)) st1 = Returns (None, diff_state st1)).
  { intros st1.
    unfold bind, OnUpdateCount_Add, ManagedIngresses_Set, log_line, get_awsutil,
      put_awsutil, get_ac, put_ac, ret. simpl.
    rewrite ingressToDelete_eq. simpl.
    rewrite append_deletable. reflexivity. }
  unfold OnUpdate, bootstrap_phase.
  rewrite !(bind_eq get_ac). unfold get_ac. cbv beta iota.
  rewrite bind_eq.
  destruct (ALBIngresses (this st)) as [|e l].
  - destruct (assembleIngresses st) as [[[] st1] | c msg | msg]; try reflexivity.
    apply Hrest.
  - unfold ret at 1 3. apply Hrest.
Qed.

Lemma bootstrap_phase_initialized (st : State) :
  ALBIngresses (this st) <> [] -> bootstrap_phase st = Returns (tt, st).
Proof.
  unfold bootstrap_phase, bind, get_ac, ret.
  destruct (ALBIngresses (this st)); [congruence | reflexivity].
Qed.

Lemma bootstrap_phase_nil (st : State) :
  ALBIngresses (this st) = [] -> bootstrap_phase st = assembleIngresses st.
Proof.
  unfold bootstrap_phase, bind, get_ac. intros ->. reflexivity.
Qed.

Lemma OnUpdate_initialized (cfg : Configuration) (st : State) :
  ALBIngresses (this st) <> [] -> OnUpdate cfg st = Returns (None, diff_state st).
Proof.
  intros Hinit. rewrite OnUpdate_eq, bootstrap_phase_initialized by assumption. reflexivity.
Qed.

End Cycle.

(** ** Membership in the lists of a cycle *)

Lemma marked_for_teardown_true (newList : ALBIngressesT) (e : ALBIngress) :
  marked_for_teardown newList e = true <->
  tainted e = false /\ find newList e < 0 /\ LoadBalancers e <> [].
Proof.
  unfold marked_for_teardown.
  rewrite !andb_true_iff, negb_true_iff, Z.ltb_lt, len_pos_cons. tauto.
Qed.

Lemma in_deletable_of (newList old : ALBIngressesT) (d : ALBIngress) :
  In d (deletable_of newList old) <->
  exists e, In e old /\ marked_for_teardown newList e = true /\ d = StripDesiredState e.
Proof.
  unfold deletable_of. rewrite in_map_iff. split.
  - intros (e & <- & Hin). apply filter_In in Hin. destruct Hin. eauto.
  - intros (e & Hin & Hm & ->). exists e. split; [reflexivity|].
    apply filter_In. auto.
Qed.

Lemma omap_cons {A B} (f : A -> option B) (x : A) (l : list A) :
  omap f (x :: l) = match f x with Some y => y :: omap f l | None => omap f l end.
Proof. reflexivity. Qed.

Lemma in_omap {A B} (f : A -> option B) (l : list A) (y : B) :
  In y (omap f l) <-> exists x, In x l /\ f x = Some y.
Proof.
  induction l as [|a l IH]; simpl.
  - split; [intros [] | intros (x & [] & _)].
  - destruct (f a) as [b|] eqn:Hfa; simpl; rewrite IH; split.
    + intros [<- | (x & Hin & Hfx)]; eauto.
    + intros (x & [<- | Hin] & Hfx); [left; congruence | right; eauto].
    + intros (x & Hin & Hfx); eauto.
    + intros (x & [<- | Hin] & Hfx); [congruence | eauto].
Qed.

Lemma NoDup_map_eq {A B} (f : A -> B) (l : list A) (x y : A) :
  List.NoDup (map f l) -> In x l -> In y l -> f x = f y -> x = y.
Proof.
  induction l as [|a l IH]; simpl; intros Hnd Hx Hy Hf; [contradiction|].
  inversion Hnd as [|? ? Hnotin Hnd']; subst.
  destruct Hx as [-> | Hx], Hy as [-> | Hy]; auto.
  - exfalso. apply Hnotin. rewrite Hf. now apply in_map.
  - exfalso. apply Hnotin. rewrite <- Hf. now apply in_map.
Qed.

Lemma Forall_map_const {A B} (f : A -> B) (c : B) (l : list A) :
  Forall (fun x => f x = c) l -> map f l = repeat c (length l).
Proof.
  induction 1 as [|x l Hx _ IH]; simpl; [reflexivity|]. now rewrite Hx, IH.
Qed.

Section Diff.

Context `{Collaborators}.

Lemma OnUpdate_range_eq (ac : ALBController) (items : list Ingress) (acc : ALBIngressesT) :
  OnUpdate_range ac items acc = acc ++ omap (built ac) items.
Proof.
  revert acc. induction items as [|i items IH]; intros acc; simpl.
  - now rewrite app_nil_r.
  - unfold built at 1.
    destruct (validIngress ac i); simpl; [|apply IH].
    destruct (NewALBIngressFromIngress i ac) as [[e|] [err|]]; simpl;
      rewrite IH, <- ?app_assoc; reflexivity.
Qed.

Lemma newSet_eq (ac : ALBController) :
  newSet ac = omap (built ac) (IngressStore (storeLister ac)).
Proof. unfold newSet. now rewrite OnUpdate_range_eq. Qed.

(** An entity of the old list whose identity the new list lacks is not in
    the new list, and is in the next list exactly through the deletable
    part. *)
Lemma identity_in_nextSet (ac : ALBController) (e : ALBIngress) :
  find (newSet ac) e < 0 ->
  In (identity e) (map identity (nextSet ac)) ->
  exists e', In e' (ALBIngresses ac) /\ marked_for_teardown (newSet ac) e' = true /\
             identity e' = identity e.
Proof.
  intros Habsent Hin. unfold nextSet in Hin. rewrite map_app, in_app_iff in Hin.
  destruct Hin as [Hnew | Hdel].
  - apply find_absent in Habsent. contradiction.
  - apply in_map_iff in Hdel. destruct Hdel as (d & Hid & Hd).
    apply in_deletable_of in Hd. destruct Hd as (e' & Hin & Hm & ->).
    exists e'. auto.
Qed.

End Diff.

(** ** The bootstrap *)

Section Bootstrap.

Context `{Collaborators}.

Lemma assembleIngresses_eq (st : State) :
  assembleIngresses st =
  match DescribeLoadBalancers (awsutil st) (ClusterName (this st)) with
  | Err err => Exits 255 err
  | Ok loadBalancers =>
      match for_each assembleIngresses_go loadBalancers (bootstrap_start st) with
      | Returns (_, st1) => Returns (tt, bootstrap_end st1)
      | Exits c msg => Exits c msg
      | Panics msg => Panics msg
      end
  end.
Proof.
  unfold assembleIngresses.
  rewrite bind_eq. unfold log_line at 1. cbv beta iota.
  rewrite bind_eq. unfold get_ac at 1. cbv beta iota.
  rewrite bind_eq. unfold put_ac at 1. cbv beta iota.
  rewrite bind_eq. unfold get_awsutil at 1. cbv beta iota.
  cbn [this awsutil logged].
  destruct (DescribeLoadBalancers (awsutil st) (ClusterName (this st))) as [lbs | err];
    [|reflexivity].
  rewrite bind_eq. fold (bootstrap_start st).
  destruct (for_each assembleIngresses_go lbs (bootstrap_start st)) as [[[] st1] | c msg | msg];
    reflexivity.
Qed.

End Bootstrap.

(** ** The backend port resolver *)

Lemma GetServiceNodePort_range_none (ports : list ServicePortT) (backendPort : Z) :
  (forall p, In p ports -> Port p <> backendPort) ->
  GetServiceNodePort_range ports backendPort = None.
Proof.
  induction ports as [|q ports IH]; simpl; intros Hall; [reflexivity|].
  destruct (Port q =? backendPort) eqn:Hq.
  - apply Z.eqb_eq in Hq. exfalso. apply (Hall q); auto.
  - apply IH. intros p Hp. apply Hall. auto.
Qed.

Lemma GetServiceNodePort_range_first
    (pre : list ServicePortT) (p : ServicePortT) (post : list ServicePortT) (backendPort : Z) :
  (forall q, In q pre -> Port q <> backendPort) ->
  Port p = backendPort ->
  GetServiceNodePort_range (pre ++ p :: post) backendPort = Some (NodePort p).
Proof.
  induction pre as [|q pre IH]; simpl; intros Hpre Hp.
  - apply Z.eqb_eq in Hp. now rewrite Hp.
  - destruct (Port q =? backendPort) eqn:Hq.
    + apply Z.eqb_eq in Hq. exfalso. apply (Hpre q); auto.
    + apply IH; auto.
Qed.

(** ** Dispatch *)

Lemma Reload_eq `{Collaborators} (data : list Byte.byte) (st : State) :
  Reload data st =
  Returns (([], true, None),
           {| this := set_ALBIngresses
                        (map (fun ingress => fst (Reconcile ingress)) (ALBIngresses (this st)))
                        (this st);
              awsutil := {| DescribeLoadBalancers := DescribeLoadBalancers (awsutil st);
                            OnUpdateCount := OnUpdateCount (awsutil st);
                            ReloadCount := ReloadCount (awsutil st) + 1;
                            ManagedIngresses := ManagedIngresses (awsutil st) |};
              logged := logged st |}).
Proof. reflexivity. Qed.

(** ** Runs of cycles *)

Section Runs.

Context `{Collaborators}.

Lemma assembleIngresses_go_logged (lb : LoadBalancer) (st st' : State) :
  assembleIngresses_go lb st = Returns (tt, st') -> logged st' = logged st.
Proof.
  unfold assembleIngresses_go. rewrite bind_eq. unfold get_ac. cbv beta iota.
  destruct (NewALBIngressFromLoadBalancer (ClusterName (this st)) lb) as [a|].
  - destruct (0 <=? find (ALBIngresses (this st)) a).
    + destruct (ALBIngresses (this st) !! Z.to_nat (find (ALBIngresses (this st)) a))
        as [b|]; [|discriminate].
      destruct (LoadBalancers b); [discriminate|].
      unfold put_ac. intros [= <-]. reflexivity.
    + unfold put_ac. intros [= <-]. reflexivity.
  - unfold ret. intros [= <-]. reflexivity.
Qed.

Lemma for_each_go_logged (lbs : list LoadBalancer) (st st' : State) :
  for_each assembleIngresses_go lbs st = Returns (tt, st') -> logged st' = logged st.
Proof.
  revert st. induction lbs as [|lb lbs IH]; intros st; simpl.
  - unfold ret. intros [= <-]. reflexivity.
  - rewrite bind_eq.
    destruct (assembleIngresses_go lb st) as [[[] st1] | |] eqn:Hgo; try discriminate.
    intros Hrest. apply IH in Hrest. apply assembleIngresses_go_logged in Hgo. congruence.
Qed.

Lemma bootstrap_runs_app (st : State) (l1 l2 : list LogEntry) :
  logged st = l1 ++ l2 ->
  bootstrap_runs st =
  (length (List.filter is_bootstrap_line l1) + length (List.filter is_bootstrap_line l2))%nat.
Proof.
  unfold bootstrap_runs. intros ->. now rewrite List.filter_app, length_app.
Qed.

Lemma assembleIngresses_runs (st st' : State) :
  assembleIngresses st = Returns (tt, st') ->
  bootstrap_runs st' = S (bootstrap_runs st).
Proof.
  rewrite assembleIngresses_eq.
  destruct (DescribeLoadBalancers (awsutil st) (ClusterName (this st))) as [lbs|];
    [|discriminate].
  destruct (for_each assembleIngresses_go lbs (bootstrap_start st)) as [[[] st1] | |] eqn:Hgo;
    try discriminate.
  intros [= <-]. apply for_each_go_logged in Hgo.
  unfold bootstrap_runs, bootstrap_end. cbn [logged]. rewrite Hgo.
  unfold bootstrap_start. cbn [logged].
  rewrite !List.filter_app, !length_app. simpl. lia.
Qed.

(** The bootstrap runs in a cycle that returns exactly when the tracked
    set is nil at its start. *)
Lemma OnUpdate_bootstrap_runs (cfg : Configuration) (st st' : State) (r : option error) :
  OnUpdate cfg st = Returns (r, st') ->
  bootstrap_runs st' =
  (bootstrap_runs st + match ALBIngresses (this st) with [] => 1 | _ :: _ => 0 end)%nat.
Proof.
  rewrite OnUpdate_eq.
  destruct (ALBIngresses (this st)) as [|e l] eqn:Hset.
  - rewrite bootstrap_phase_nil by assumption.
    destruct (assembleIngresses st) as [[[] st1] | |] eqn:Hboot; try discriminate.
    intros [= _ <-]. apply assembleIngresses_runs in Hboot.
    unfold bootstrap_runs in *. unfold diff_state. cbn [logged].
    rewrite List.filter_app, length_app. simpl. lia.
  - rewrite bootstrap_phase_initialized by (rewrite Hset; discriminate).
    intros [= _ <-]. unfold bootstrap_runs, diff_state. cbn [logged].
    rewrite List.filter_app, length_app. simpl. lia.
Qed.

(** A cycle that does not return ended inside the bootstrap. *)
Lemma OnUpdate_ends_only_in_bootstrap (cfg : Configuration) (st : State) :
  (forall r st', OnUpdate cfg st <> Returns (r, st')) ->
  ALBIngresses (this st) = [].
Proof.
  intros Hends. destruct (ALBIngresses (this st)) as [|e l] eqn:Hset; [reflexivity|].
  exfalso. apply (Hends None (diff_state st)).
  apply OnUpdate_initialized. rewrite Hset. discriminate.
Qed.

Lemma cycle_returns (n : Notification) (st st' : State) :
  cycle n st = Returns (tt, st') ->
  bootstrap_runs st' =
    (bootstrap_runs st + match ALBIngresses (this st) with [] => 1 | _ :: _ => 0 end)%nat /\
  exists st1 r,
    OnUpdate (seen_config n) (arrive n st) = Returns (r, st1) /\
    length (ALBIngresses (this st')) = length (ALBIngresses (this st1)).
Proof.
  unfold cycle.
  destruct (OnUpdate (seen_config n) (arrive n st)) as [[r st1] | |] eqn:Hupd; try discriminate.
  rewrite Reload_eq. intros [= <-].
  apply OnUpdate_bootstrap_runs in Hupd. split.
  - unfold bootstrap_runs in *. cbn [logged arrive this set_storeLister ALBIngresses] in *.
    exact Hupd.
  - exists st1, r. split; [reflexivity|].
    cbn [this set_ALBIngresses ALBIngresses]. now rewrite length_map.
Qed.

End Runs.

(** ** Idempotence of the diff *)

Lemma find_from_identities (p : Z) (a a' : ALBIngressesT) (b : ALBIngress) :
  map identity a = map identity a' -> find_from p a b = find_from p a' b.
Proof.
  revert p a'. induction a as [|v a IH]; intros p [|v' a'] Hids; simpl in *;
    try discriminate; [reflexivity|].
  injection Hids as Hv Hrest. rewrite Hv.
  destruct (String.eqb (identity v') (identity b)); [reflexivity|]. now apply IH.
Qed.

Lemma marked_for_teardown_identities (a a' : ALBIngressesT) (e : ALBIngress) :
  map identity a = map identity a' ->
  marked_for_teardown a e = marked_for_teardown a' e.
Proof.
  intros Hids. unfold marked_for_teardown, find.
  now rewrite (find_from_identities 0 a a' e Hids).
Qed.

Lemma find_from_same_identity (p : Z) (a : ALBIngressesT) (b b' : ALBIngress) :
  identity b = identity b' -> find_from p a b = find_from p a b'.
Proof.
  intros Hb. revert p. induction a as [|v a IH]; intros p; simpl; [reflexivity|].
  now rewrite Hb, IH.
Qed.

Lemma marked_for_teardown_Strip (a : ALBIngressesT) (e : ALBIngress) :
  marked_for_teardown a (StripDesiredState e) = marked_for_teardown a e.
Proof.
  unfold marked_for_teardown, find.
  now rewrite (find_from_same_identity 0 a (StripDesiredState e) e eq_refl).
Qed.

Lemma StripDesiredState_idempotent (e : ALBIngress) :
  StripDesiredState (StripDesiredState e) = StripDesiredState e.
Proof. reflexivity. Qed.

Lemma filter_none {A} (f : A -> bool) (l : list A) :
  (forall x, In x l -> f x = false) -> List.filter f l = [].
Proof.
  induction l as [|a l IH]; simpl; intros Hall; [reflexivity|].
  rewrite (Hall a) by auto. apply IH. auto.
Qed.

Lemma filter_all {A} (f : A -> bool) (l : list A) :
  (forall x, In x l -> f x = true) -> List.filter f l = l.
Proof.
  induction l as [|a l IH]; simpl; intros Hall; [reflexivity|].
  rewrite (Hall a) by auto. f_equal. apply IH. auto.
Qed.

Lemma map_view_identity (l l' : ALBIngressesT) :
  map view l = map view l' -> map identity l = map identity l'.
Proof.
  intros Hv. apply (f_equal (map fst)) in Hv. now rewrite !map_map in Hv.
Qed.

Lemma view_omap {A} (f g : A -> option ALBIngress) (l : list A) :
  (forall x, In x l -> option_map view (f x) = option_map view (g x)) ->
  map view (omap f l) = map view (omap g l).
Proof.
  induction l as [|a l IH]; intros Hall; [reflexivity|].
  rewrite !omap_cons. specialize (IH (fun x Hx => Hall x (or_intror Hx))).
  specialize (Hall a (or_introl eq_refl)).
  destruct (f a), (g a); simpl in *; try discriminate; [|assumption].
  injection Hall as Hfst Hsnd. unfold view at 1 3. now rewrite Hfst, Hsnd, IH.
Qed.

Section Idempotence.

Context `{Collaborators}.

(** The deletable entities of a set that is itself the result of a diff
    over the same identities: the ones carried over, unchanged. *)
Lemma deletable_of_nextSet (new new' old : ALBIngressesT) :
  map identity new' = map identity new ->
  deletable_of new' (new ++ deletable_of new old) = deletable_of new old.
Proof.
  intros Hids. unfold deletable_of at 1.
  rewrite List.filter_app, map_app.
  rewrite filter_none, filter_all; simpl.
  - unfold deletable_of. rewrite map_map.
    apply map_ext. intros e. apply StripDesiredState_idempotent.
  - intros d Hd. apply in_deletable_of in Hd. destruct Hd as (e & _ & Hm & ->).
    rewrite marked_for_teardown_Strip.
    now rewrite (marked_for_teardown_identities new' new e Hids).
  - intros e He. rewrite (marked_for_teardown_identities new' new e Hids).
    unfold marked_for_teardown.
    destruct (find new e <? 0) eqn:Habsent; [|now rewrite andb_false_r].
    apply Z.ltb_lt, find_absent in Habsent. exfalso. apply Habsent. now apply in_map.
Qed.

Lemma built_view (ac ac' : ALBController) (i : Ingress) :
  IngressClass ac' = IngressClass ac ->
  option_map view (fst (NewALBIngressFromIngress i ac')) =
    option_map view (fst (NewALBIngressFromIngress i ac)) ->
  option_map view (built ac' i) = option_map view (built ac i).
Proof.
  intros Hcls Hview. unfold built, validIngress. rewrite Hcls.
  destruct (if String.eqb (IngressClass ac) "" then true
            else if String.eqb (annotation i ingress_class_annotation) (IngressClass ac)
                 then true else false); [|reflexivity].
  destruct (NewALBIngressFromIngress i ac') as [[e'|] [err'|]],
           (NewALBIngressFromIngress i ac) as [[e|] [err|]];
    unfold view in *; simpl in *; congruence.
Qed.

End Idempotence.

(** ** Unique identities: established by the bootstrap, kept by the diff *)



Section Invariant.

Context `{Collaborators}.






End Invariant.

(** ** The scenarios run as described *)

(** The builder fails on [ns/lower] and the entity of that cycle is
    tainted; the convergence of the tainted [bar] fails. *)
Example unresolved_spec_is_tainted :
  map (fun e => (identity e, tainted e))
      (@newSet Scenario.collaborators (this Scenario.unresolved_spec))
    = [("ns/lower"%string, true)] /\
  snd (Scenario.converge Scenario.bar) = Some "tainted"%string.
Proof. split; reflexivity. Qed.

(** The scenarios of the deletion pass: of [foo], [gone] and [bar] only
    [foo] is kept, stripped; the two load balancers of [ns/foo] found by
    the bootstrap are merged into one entity. *)
Example three_tracked_next_set :
  @nextSet Scenario.collaborators (this Scenario.three_tracked)
    = [StripDesiredState Scenario.foo].
Proof. reflexivity. Qed.

Example churn_next_set :
  map (fun e => (identity e, desiredState e, LoadBalancers e, tainted e))
      (@nextSet Scenario.collaborators (this Scenario.churn))
    = [("ns/lower"%string,
        Some {| rules := Rules Scenario.lower_ingress;
                settings := Annotations Scenario.lower_ingress |},
        [], true);
       ("ns/foo"%string, None, ["arn1"%string], false)].
Proof. reflexivity. Qed.

(** The filter compares whole strings: no case folding, no wildcard, and
    a missing annotation only passes the empty filter class. *)
Example class_filter_is_exact :
  validIngress (Scenario.controller "alb" [] []) Scenario.lower_ingress = true /\
  validIngress (Scenario.controller "alb" [] []) Scenario.upper_ingress = false /\
  validIngress (Scenario.controller "*" [] []) Scenario.lower_ingress = false /\
  validIngress (Scenario.controller "al" [] []) Scenario.lower_ingress = false /\
  validIngress (Scenario.controller "alb" [] [])
    {| Namespace := "ns"; Name := "plain"; Annotations := ∅; Rules := [] |} = false /\
  validIngress (Scenario.controller "" [] [])
    {| Namespace := "ns"; Name := "plain"; Annotations := ∅; Rules := [] |} = true.
Proof. repeat split. Qed.

Example utf8_characters_counts_code_points :
  utf8_characters "héllo" = 5%nat /\ String.length "héllo" = 6%nat.
Proof. split; reflexivity. Qed.

(** * The claims *)

(** C1 (deletion eligibility).  In every diff cycle, take an entity [e] of
    the previous tracked set (the set after the bootstrap, when one runs)
    whose identity the newly built set lacks.  The cycle returns, and in
    the next set: if [e] is not tainted and has a load balancer, [e]
    appears with its desired state stripped; if [e] is not tainted and
    has no load balancer, [e] does not appear; if [e] is tainted, [e] does
    not appear whatever its load balancers.  Where identities are unique
    in the previous set, "does not appear" holds for the identity of [e]
    as well, and the stripped entity is the only one with that identity. *)
Theorem deletion_eligibility `{Collaborators}
    (cfg : Configuration) (st st1 : State) (e : ALBIngress) :
  bootstrap_phase st = Returns (tt, st1) ->
  In e (ALBIngresses (this st1)) ->
  ~ In (identity e) (map identity (newSet (this st1))) ->
  exists st2,
    OnUpdate cfg st = Returns (None, st2) /\
    (tainted e = false -> LoadBalancers e <> [] ->
       In (StripDesiredState e) (ALBIngresses (this st2)) /\
       (unique_identities (ALBIngresses (this st1)) ->
        forall e', In e' (ALBIngresses (this st2)) -> identity e' = identity e ->
                   e' = StripDesiredState e)) /\
    (tainted e = false -> LoadBalancers e = [] ->
       ~ In e (ALBIngresses (this st2)) /\
       (unique_identities (ALBIngresses (this st1)) ->
        ~ In (identity e) (map identity (ALBIngresses (this st2))))) /\
    (tainted e = true ->
       ~ In e (ALBIngresses (this st2)) /\
       (unique_identities (ALBIngresses (this st1)) ->
        ~ In (identity e) (map identity (ALBIngresses (this st2))))).
Proof.
  intros Hboot Hin Hlacks.
  assert (Habsent : find (newSet (this st1)) e < 0) by now apply find_absent.
  exists (diff_state st1). split.
  { rewrite OnUpdate_eq, Hboot. reflexivity. }
  assert (Hnotnew : ~ In e (newSet (this st1))).
  { intros Hnew. apply find_absent in Habsent. apply Habsent. now apply in_map. }
  assert (Hother : unique_identities (ALBIngresses (this st1)) ->
                   forall e', In e' (ALBIngresses (this st1)) ->
                              identity e' = identity e -> e' = e).
  { intros Hnd e' He' Hid. eapply NoDup_map_eq; eauto. }
  simpl. unfold nextSet. repeat split.
  - apply in_app_iff. right. apply in_deletable_of. exists e.
    split; [assumption|]. split; [|reflexivity].
    apply marked_for_teardown_true. auto.
  - intros Hnd e' He' Hid.
    apply in_app_iff in He'. destruct He' as [Hnew | Hdel].
    + exfalso. apply find_absent in Habsent. apply Habsent.
      rewrite <- Hid. now apply in_map.
    + apply in_deletable_of in Hdel. destruct Hdel as (e0 & Hin0 & _ & ->).
      f_equal. apply Hother; assumption.
  - intros Hnext. apply in_app_iff in Hnext. destruct Hnext as [Hnew | Hdel]; [contradiction|].
    apply in_deletable_of in Hdel. destruct Hdel as (e0 & _ & Hm & ->).
    apply marked_for_teardown_true in Hm. simpl in *. tauto.
  - intros Hnd Hnext.
    destruct (identity_in_nextSet (this st1) e Habsent Hnext) as (e' & He' & Hm & Hid).
    apply Hother in Hid; try assumption. subst e'.
    apply marked_for_teardown_true in Hm. tauto.
  - intros Hnext. apply in_app_iff in Hnext. destruct Hnext as [Hnew | Hdel]; [contradiction|].
    apply in_deletable_of in Hdel. destruct Hdel as (e0 & _ & Hm & ->).
    apply marked_for_teardown_true in Hm. simpl in *. destruct Hm. congruence.
  - intros Hnd Hnext.
    destruct (identity_in_nextSet (this st1) e Habsent Hnext) as (e' & He' & Hm & Hid).
    apply Hother in Hid; try assumption. subst e'.
    apply marked_for_teardown_true in Hm. destruct Hm. congruence.
Qed.

(** The three cases of C1 on one cycle: [foo] is stripped and kept, [gone]
    and the tainted [bar] are dropped. *)
Lemma deletion_eligibility_witness :
  (exists st2,
     @OnUpdate Scenario.collaborators Scenario.no_config Scenario.three_tracked
       = Returns (None, st2) /\
     In (StripDesiredState Scenario.foo) (ALBIngresses (this st2))) /\
  (exists st2,
     @OnUpdate Scenario.collaborators Scenario.no_config Scenario.three_tracked
       = Returns (None, st2) /\
     (In Scenario.gone (ALBIngresses (this st2)) -> False)) /\
  (exists st2,
     @OnUpdate Scenario.collaborators Scenario.no_config Scenario.three_tracked
       = Returns (None, st2) /\
     (In Scenario.bar (ALBIngresses (this st2)) -> False)).
Proof.
  repeat split.
  - destruct (@deletion_eligibility Scenario.collaborators Scenario.no_config
                Scenario.three_tracked Scenario.three_tracked Scenario.foo)
      as (st2 & Hrun & Hfoo & _).
    + reflexivity.
    + simpl. tauto.
    + simpl. tauto.
    + exists st2. split; [exact Hrun|]. apply Hfoo; [reflexivity | discriminate].
  - destruct (@deletion_eligibility Scenario.collaborators Scenario.no_config
                Scenario.three_tracked Scenario.three_tracked Scenario.gone)
      as (st2 & Hrun & _ & Hgone & _).
    + reflexivity.
    + simpl. tauto.
    + simpl. tauto.
    + exists st2. split; [exact Hrun|]. apply Hgone; reflexivity.
  - destruct (@deletion_eligibility Scenario.collaborators Scenario.no_config
                Scenario.three_tracked Scenario.three_tracked Scenario.bar)
      as (st2 & Hrun & _ & _ & Hbar).
    + reflexivity.
    + simpl. tauto.
    + simpl. tauto.
    + exists st2. split; [exact Hrun|]. apply Hbar; reflexivity.
Defined.

(** C2 as stated fails: the tainted [bar] is tracked, no spec for it is in
    the store, and the cycle returns with an empty tracked set; [bar] is not
    retained. *)
Lemma tainted_entity_not_retained :
  In Scenario.bar (ALBIngresses (this Scenario.bar_tracked)) /\
  tainted Scenario.bar = true /\
  IngressStore (storeLister (this Scenario.bar_tracked)) = [] /\
  exists st2,
    @OnUpdate Scenario.collaborators Scenario.no_config Scenario.bar_tracked
      = Returns (None, st2) /\
    ALBIngresses (this st2) = [].
Proof.
  split; [simpl; tauto|]. split; [reflexivity|]. split; [reflexivity|].
  exists (@diff_state Scenario.collaborators Scenario.bar_tracked).
  split; [apply OnUpdate_initialized; discriminate | reflexivity].
Qed.

(** C2, amended.  A tainted entity [e] of the previous tracked set whose
    identity the newly built set lacks is never marked for teardown: the
    deletion pass returns only untainted entities, does not return [e], and
    leaves [e] in the old list as it was.  It is not retained either: the
    cycle returns a next set that does not contain [e], and every entity
    of the next set with the identity of [e] is untainted. *)
Theorem tainted_entity_skipped_and_dropped `{Collaborators}
    (cfg : Configuration) (st st1 : State) (e : ALBIngress) :
  bootstrap_phase st = Returns (tt, st1) ->
  In e (ALBIngresses (this st1)) ->
  tainted e = true ->
  ~ In (identity e) (map identity (newSet (this st1))) ->
  (exists deletable st',
     ingressToDelete (newSet (this st1)) st1 = Returns (deletable, st') /\
     (forall d, In d deletable -> tainted d = false) /\
     ~ In e deletable /\
     In e (ALBIngresses (this st'))) /\
  (exists st2,
     OnUpdate cfg st = Returns (None, st2) /\
     ~ In e (ALBIngresses (this st2)) /\
     (forall e', In e' (ALBIngresses (this st2)) -> identity e' = identity e ->
                 tainted e' = false)).
Proof.
  intros Hboot Hin Htainted Hlacks.
  assert (Habsent : find (newSet (this st1)) e < 0) by now apply find_absent.
  assert (Hdel : forall d, In d (deletable_of (newSet (this st1)) (ALBIngresses (this st1))) ->
                           tainted d = false).
  { intros d Hd. apply in_deletable_of in Hd. destruct Hd as (e0 & _ & Hm & ->).
    apply marked_for_teardown_true in Hm. simpl. tauto. }
  split.
  - eexists _, _. split; [apply ingressToDelete_eq|]. split; [exact Hdel|]. split.
    + intros Hd. apply Hdel in Hd. congruence.
    + simpl. unfold stripped_in_place. apply in_map_iff. exists e. split; [|assumption].
      unfold marked_for_teardown. rewrite Htainted. reflexivity.
  - exists (diff_state st1). split; [rewrite OnUpdate_eq, Hboot; reflexivity|].
    simpl. unfold nextSet. split.
    + intros Hnext. apply in_app_iff in Hnext. destruct Hnext as [Hnew | Hd].
      * apply find_absent in Habsent. apply Habsent. now apply in_map.
      * apply Hdel in Hd. congruence.
    + intros e' He' Hid. apply in_app_iff in He'. destruct He' as [Hnew | Hd].
      * exfalso. apply find_absent in Habsent. apply Habsent.
        rewrite <- Hid. now apply in_map.
      * now apply Hdel.
Qed.

(** The amended C2 on [bar]: skipped by the deletion pass, absent from the
    next set. *)
Lemma tainted_entity_skipped_and_dropped_witness :
  exists st2,
    @OnUpdate Scenario.collaborators Scenario.no_config Scenario.bar_tracked
      = Returns (None, st2) /\
    (In Scenario.bar (ALBIngresses (this st2)) -> False).
Proof.
  destruct (@tainted_entity_skipped_and_dropped Scenario.collaborators Scenario.no_config
              Scenario.bar_tracked Scenario.bar_tracked Scenario.bar)
    as (_ & st2 & Hrun & Hnot & _).
  - reflexivity.
  - simpl. tauto.
  - reflexivity.
  - simpl. tauto.
  - exists st2. split; [exact Hrun | exact Hnot].
Defined.

(** C3 (bootstrap merge), evaluated on the code.  The cloud lists two load
    balancers that map to one identity, with handles [h1] and [h2].  The
    bootstrap returns and tracks one entity for that identity, as C3 says;
    but its collection holds [h1] twice and not [h2]: the merge branch
    reads element 0 of the collection of the entity it has just looked up,
    not of the entity built for the second load balancer. *)
Theorem bootstrap_merge_repeats_first_handle `{Collaborators}
    (st : State) (lb1 lb2 : LoadBalancer) (e1 e2 : ALBIngress) (h1 h2 : string) :
  DescribeLoadBalancers (awsutil st) (ClusterName (this st)) = Ok [lb1; lb2] ->
  NewALBIngressFromLoadBalancer (ClusterName (this st)) lb1 = Some e1 ->
  NewALBIngressFromLoadBalancer (ClusterName (this st)) lb2 = Some e2 ->
  identity e1 = identity e2 ->
  LoadBalancers e1 = [h1] ->
  LoadBalancers e2 = [h2] ->
  h1 <> h2 ->
  exists st',
    assembleIngresses st = Returns (tt, st') /\
    ALBIngresses (this st') = [set_LoadBalancers [h1; h1] e1] /\
    ~ In h2 (concat (map LoadBalancers (ALBIngresses (this st')))).
Proof.
  intros Hlist Hlb1 Hlb2 Hid Hh1 Hh2 Hne.
  rewrite assembleIngresses_eq, Hlist.
  assert (Hrun : for_each assembleIngresses_go [lb1; lb2] (bootstrap_start st) =
                 Returns (tt, {| this := set_ALBIngresses [set_LoadBalancers [h1; h1] e1] (this st);
                                 awsutil := awsutil st;
                                 logged := logged (bootstrap_start st) |})).
  { cbn [for_each]. rewrite bind_eq.
    unfold assembleIngresses_go at 1. rewrite bind_eq. unfold get_ac at 1.
    cbn [bootstrap_start this set_ALBIngresses ClusterName ALBIngresses].
    rewrite Hlb1. cbn [find find_from]. cbn [Z.leb Z.compare Z.opp].
    unfold put_ac at 1. cbn [this awsutil logged set_ALBIngresses ClusterName ALBIngresses app].
    rewrite bind_eq.
    unfold assembleIngresses_go at 1. rewrite bind_eq. unfold get_ac at 1.
    cbn [this set_ALBIngresses ClusterName ALBIngresses].
    rewrite Hlb2. cbn [find find_from].
    replace (String.eqb (identity e1) (identity e2)) with true
      by (symmetry; now apply String.eqb_eq).
    change ([e1] !! Z.to_nat 0) with (Some e1). cbv beta iota.
    rewrite Hh1.
    change (<[Z.to_nat 0 := set_LoadBalancers ([h1] ++ [h1]) e1]> [e1])
      with [set_LoadBalancers [h1; h1] e1].
    reflexivity. }
  rewrite Hrun. eexists. split; [reflexivity|].
  cbn [bootstrap_end this set_ALBIngresses ALBIngresses]. split; [reflexivity|].
  simpl. intros [Heq | [Heq | []]]; congruence.
Qed.

(** The bootstrap over [lb_a] and [lb_b]: one entity for [ns/foo] that
    holds [arn-a] twice and [arn-b] not at all. *)
Lemma bootstrap_merge_repeats_first_handle_witness :
  exists st',
    @assembleIngresses Scenario.collaborators Scenario.cold_two_lbs = Returns (tt, st') /\
    ALBIngresses (this st') =
      [{| identity := "ns/foo"; desiredState := None;
          LoadBalancers := ["arn-a"; "arn-a"]%string; tainted := false |}] /\
    (In "arn-b"%string (concat (map LoadBalancers (ALBIngresses (this st')))) -> False).
Proof.
  destruct (@bootstrap_merge_repeats_first_handle Scenario.collaborators
              Scenario.cold_two_lbs Scenario.lb_a Scenario.lb_b
              {| identity := "ns/foo"; desiredState := None;
                 LoadBalancers := ["arn-a"%string]; tainted := false |}
              {| identity := "ns/foo"; desiredState := None;
                 LoadBalancers := ["arn-b"%string]; tainted := false |}
              "arn-a"%string "arn-b"%string)
    as (st' & Hrun & Hset & Hlost).
  - reflexivity.
  - reflexivity.
  - reflexivity.
  - reflexivity.
  - reflexivity.
  - reflexivity.
  - discriminate.
  - exists st'. split; [exact Hrun|]. split; [exact Hset | exact Hlost].
Defined.

(** C4 as stated fails: in an empty cluster in front of an empty cloud the
    first cycle bootstraps and leaves the tracked set nil, and the second
    cycle bootstraps again. *)
Lemma bootstrap_runs_twice :
  ALBIngresses (this Scenario.cold_empty) = [] /\
  map bootstrap_runs
      (@cycles Scenario.collaborators [Scenario.quiet; Scenario.quiet] Scenario.cold_empty)
    = [1%nat; 2%nat] /\
  map (fun s => ALBIngresses (this s))
      (@cycles Scenario.collaborators [Scenario.quiet; Scenario.quiet] Scenario.cold_empty)
    = [[]; []].
Proof. repeat split; vm_compute; reflexivity. Qed.

(** C4, amended.  The bootstrap runs in a diff cycle if and only if the
    tracked set is nil at the start of that cycle (a cycle that does not
    return ended inside the bootstrap).  Over a run of cycles each of
    which ends with at least one tracked entity, it runs in the first
    cycle only, and only when the set was nil then: it never runs a
    second time.  A cycle that ends with no tracked entity leaves the set
    nil, and the statement says nothing of the cycles after it. *)
Theorem bootstrap_runs_iff_nil `{Collaborators} :
  (forall cfg st r st',
     OnUpdate cfg st = Returns (r, st') ->
     (bootstrap_runs st' = S (bootstrap_runs st) <-> ALBIngresses (this st) = []) /\
     (bootstrap_runs st' = bootstrap_runs st <-> ALBIngresses (this st) <> [])) /\
  (forall cfg st,
     (forall r st', OnUpdate cfg st <> Returns (r, st')) -> ALBIngresses (this st) = []) /\
  (forall ns st,
     Forall (fun s => ALBIngresses (this s) <> []) (cycles ns st) ->
     Forall (fun s => bootstrap_runs s =
                      (bootstrap_runs st +
                       match ALBIngresses (this st) with [] => 1 | _ :: _ => 0 end)%nat)
            (cycles ns st)).
Proof.
  split; [|split].
  - intros cfg st r st' Hrun. apply OnUpdate_bootstrap_runs in Hrun. rewrite Hrun.
    destruct (ALBIngresses (this st)); split; split; intros; try congruence; lia.
  - apply OnUpdate_ends_only_in_bootstrap.
  - intros ns. induction ns as [|n ns IH]; intros st Htracked; simpl in *; [constructor|].
    destruct (cycle n st) as [[[] st'] | |] eqn:Hcycle; try constructor.
    + apply cycle_returns in Hcycle. tauto.
    + inversion Htracked as [|? ? Hst' Hrest]; subst.
      apply cycle_returns in Hcycle. destruct Hcycle as [Hruns _].
      specialize (IH st' Hrest).
      destruct (ALBIngresses (this st')) as [|e l]; [congruence|].
      eapply Forall_impl; [exact IH|]. simpl. intros s Hs. lia.
Qed.

(** The amended C4 on three cycles with one spec in the store: every
    cycle ends with a tracked entity, and the bootstrap has run once after
    each of them. *)
Lemma bootstrap_runs_iff_nil_witness :
  map bootstrap_runs
      (@cycles Scenario.collaborators
               [Scenario.one_spec; Scenario.one_spec; Scenario.one_spec] Scenario.cold_empty)
    = [1%nat; 1%nat; 1%nat].
Proof.
  rewrite (Forall_map_const bootstrap_runs _ _
             (proj2 (proj2 (@bootstrap_runs_iff_nil Scenario.collaborators))
                [Scenario.one_spec; Scenario.one_spec; Scenario.one_spec] Scenario.cold_empty
                ltac:(vm_compute; repeat constructor; discriminate))).
  vm_compute. reflexivity.
Defined.

(** C5 (bootstrap-fatal).  When the tracked set is nil and the listing
    call of the cloud fails with [err], [assembleIngresses] ends the
    process through [glog.Fatal] with that error, and so does the diff
    cycle that started it: no state with an empty or partial tracked set
    is produced. *)
Theorem listing_failure_is_fatal `{Collaborators}
    (cfg : Configuration) (st : State) (err : error) :
  ALBIngresses (this st) = [] ->
  DescribeLoadBalancers (awsutil st) (ClusterName (this st)) = Err err ->
  assembleIngresses st = Exits 255 err /\
  OnUpdate cfg st = Exits 255 err /\
  (forall r st', OnUpdate cfg st <> Returns (r, st')).
Proof.
  intros Hnil Hfail.
  assert (Hasm : assembleIngresses st = Exits 255 err).
  { rewrite assembleIngresses_eq, Hfail. reflexivity. }
  assert (Hupd : OnUpdate cfg st = Exits 255 err).
  { rewrite OnUpdate_eq, bootstrap_phase_nil, Hasm by assumption. reflexivity. }
  repeat split; try assumption.
  intros r st'. rewrite Hupd. discriminate.
Qed.

(** C5 on a cold controller in front of a failing cloud. *)
Lemma listing_failure_is_fatal_witness :
  @OnUpdate Scenario.collaborators Scenario.no_config Scenario.cold_failing_cloud
    = Exits 255 "RequestError: send request failed".
Proof.
  apply (@listing_failure_is_fatal Scenario.collaborators Scenario.no_config
           Scenario.cold_failing_cloud "RequestError: send request failed"%string);
    reflexivity.
Defined.

(** C6 (class filter).  [validIngress] is true exactly when the filter
    class is empty or the class annotation of the spec is the filter
    class, compared as strings (no case folding, no wildcard).  A spec
    that fails the filter adds no entity in that cycle: it builds
    nothing, and the new set is the one of the store without it. *)
Theorem class_filter `{Collaborators} (ac : ALBController) (i : Ingress) :
  (validIngress ac i = true <->
   IngressClass ac = ""%string \/
   Annotations i !! ingress_class_annotation = Some (IngressClass ac)) /\
  (validIngress ac i = false ->
   built ac i = None /\
   forall pre post,
     IngressStore (storeLister ac) = pre ++ i :: post ->
     newSet ac = OnUpdate_range ac (pre ++ post) []).
Proof.
  split; [apply validIngress_spec|].
  intros Hfail. assert (Hnone : built ac i = None).
  { unfold built. now rewrite Hfail. }
  split; [exact Hnone|].
  intros pre post Hstore. unfold newSet.
  rewrite Hstore, !OnUpdate_range_eq. f_equal.
  clear Hstore. induction pre as [|j pre IH].
  - change ([] ++ i :: post) with (i :: post). now rewrite omap_cons, Hnone.
  - change ((j :: pre) ++ i :: post) with (j :: (pre ++ i :: post)).
    change ((j :: pre) ++ post) with (j :: (pre ++ post)).
    now rewrite !omap_cons, IH.
Qed.

(** C6 at class [alb]: the annotation [ALB] fails the filter and leaves
    the new set empty, the annotation [alb] passes. *)
Lemma class_filter_witness :
  validIngress (Scenario.controller "alb" [Scenario.upper_ingress] []) Scenario.upper_ingress
    = false /\
  @newSet Scenario.collaborators (Scenario.controller "alb" [Scenario.upper_ingress] []) = [] /\
  validIngress (Scenario.controller "alb" [Scenario.upper_ingress] []) Scenario.lower_ingress
    = true.
Proof.
  split; [reflexivity|]. split.
  - apply (proj2 (proj2 (@class_filter Scenario.collaborators
                           (Scenario.controller "alb" [Scenario.upper_ingress] [])
                           Scenario.upper_ingress) eq_refl) [] []).
    reflexivity.
  - apply (proj1 (@class_filter Scenario.collaborators
                    (Scenario.controller "alb" [Scenario.upper_ingress] [])
                    Scenario.lower_ingress)).
    right. reflexivity.
Defined.

(** C7 (backend port resolver).  [GetServiceNodePort] returns an error
    when the store has no service under the key; an error when the
    service is not of type NodePort; an error when no declared port has
    the requested port number; and otherwise the node port of the first
    declared port with that port number. *)
Theorem GetServiceNodePort_outcomes
    (ac : ALBController) (serviceKey : string) (backendPort : Z) :
  (ServiceStore (storeLister ac) !! serviceKey = None ->
   GetServiceNodePort ac serviceKey backendPort
     = Err ("Unable to find the " +:+ serviceKey +:+ " service")) /\
  (forall item,
     ServiceStore (storeLister ac) !! serviceKey = Some item ->
     Spec_Type item <> ServiceTypeNodePort ->
     GetServiceNodePort ac serviceKey backendPort
       = Err (serviceKey +:+ " service is not of type NodePort")) /\
  (forall item,
     ServiceStore (storeLister ac) !! serviceKey = Some item ->
     Spec_Type item = ServiceTypeNodePort ->
     (forall p, In p (Spec_Ports item) -> Port p <> backendPort) ->
     GetServiceNodePort ac serviceKey backendPort
       = Err ("Unable to find a port defined in the " +:+ serviceKey +:+ " service")) /\
  (forall item pre p post,
     ServiceStore (storeLister ac) !! serviceKey = Some item ->
     Spec_Type item = ServiceTypeNodePort ->
     Spec_Ports item = pre ++ p :: post ->
     (forall q, In q pre -> Port q <> backendPort) ->
     Port p = backendPort ->
     GetServiceNodePort ac serviceKey backendPort = Ok (NodePort p)).
Proof.
  unfold GetServiceNodePort. repeat split.
  - intros ->. reflexivity.
  - intros item -> Htype. apply String.eqb_neq in Htype. now rewrite Htype.
  - intros item -> Htype Hports. apply String.eqb_eq in Htype. rewrite Htype. simpl.
    now rewrite GetServiceNodePort_range_none.
  - intros item pre p post -> Htype Hsplit Hpre Hp.
    apply String.eqb_eq in Htype. rewrite Htype, Hsplit. simpl.
    now rewrite GetServiceNodePort_range_first.
Qed.

(** C7 on a store with a NodePort service and a ClusterIP service: the
    four outcomes. *)
Lemma GetServiceNodePort_outcomes_witness :
  GetServiceNodePort Scenario.with_services "ns/missing" 80
    = Err "Unable to find the ns/missing service" /\
  GetServiceNodePort Scenario.with_services "ns/internal" 80
    = Err "ns/internal service is not of type NodePort" /\
  GetServiceNodePort Scenario.with_services "ns/web" 8080
    = Err "Unable to find a port defined in the ns/web service" /\
  GetServiceNodePort Scenario.with_services "ns/web" 80 = Ok 30080.
Proof.
  split; [|split; [|split]].
  - apply (proj1 (GetServiceNodePort_outcomes Scenario.with_services "ns/missing" 80)).
    reflexivity.
  - apply (proj1 (proj2 (GetServiceNodePort_outcomes Scenario.with_services "ns/internal" 80))
             Scenario.internal_service); [reflexivity | discriminate].
  - apply (proj1 (proj2 (proj2 (GetServiceNodePort_outcomes Scenario.with_services "ns/web" 8080)))
             Scenario.web_service); [reflexivity | reflexivity |].
    simpl. intros p [<- | [<- | [<- | []]]]; discriminate.
  - apply (proj2 (proj2 (proj2 (GetServiceNodePort_outcomes Scenario.with_services "ns/web" 80)))
             Scenario.web_service
             [{| Port := 443; NodePort := 30443 |}]
             {| Port := 80; NodePort := 30080 |}
             [{| Port := 80; NodePort := 31080 |}]); try reflexivity.
    simpl. intros q [<- | []]. discriminate.
Defined.

(** C8 (diff idempotence).  Start a diff cycle with the tracked set
    initialized: it returns.  If its next set is not nil (so that the
    second cycle does not bootstrap either) and the builder gives each
    spec of the unchanged store the same identity and desired-state
    content in both cycles (or no entity in both), then the second cycle
    returns as well and its next set has, entity by entity, the identities
    and the desired-state content of the first next set. *)
Theorem diff_idempotent `{Collaborators} (cfg : Configuration) (st : State) :
  ALBIngresses (this st) <> [] ->
  exists st1,
    OnUpdate cfg st = Returns (None, st1) /\
    (ALBIngresses (this st1) <> [] ->
     (forall i, In i (IngressStore (storeLister (this st))) ->
                option_map view (fst (NewALBIngressFromIngress i (this st1))) =
                option_map view (fst (NewALBIngressFromIngress i (this st)))) ->
     exists st2,
       OnUpdate cfg st1 = Returns (None, st2) /\
       map view (ALBIngresses (this st2)) = map view (ALBIngresses (this st1))).
Proof.
  intros Hinit. exists (diff_state st). split; [now apply OnUpdate_initialized|].
  intros Hinit1 Hbuilder. exists (diff_state (diff_state st)).
  split; [now apply OnUpdate_initialized|].
  set (ac1 := this (diff_state st)) in *.
  assert (Hnew : map view (newSet ac1) = map view (newSet (this st))).
  { rewrite !newSet_eq. apply view_omap. intros i Hi.
    apply built_view; [reflexivity|]. apply Hbuilder. exact Hi. }
  change (map view (nextSet ac1) = map view (nextSet (this st))).
  unfold nextSet at 1.
  change (ALBIngresses ac1) with (nextSet (this st)). unfold nextSet at 1.
  rewrite deletable_of_nextSet by now apply map_view_identity.
  unfold nextSet. now rewrite !map_app, Hnew.
Qed.

(** C8 on two cycles in a row: the first next set is [ns/lower] (built,
    tainted) and [ns/foo] (stripped, pending teardown); the second next
    set shows the same identities and desired states. *)
Lemma diff_idempotent_witness :
  exists st1 st2,
    @OnUpdate Scenario.collaborators Scenario.no_config Scenario.churn = Returns (None, st1) /\
    @OnUpdate Scenario.collaborators Scenario.no_config st1 = Returns (None, st2) /\
    map view (ALBIngresses (this st2)) = map view (ALBIngresses (this st1)) /\
    map identity (ALBIngresses (this st1)) = ["ns/lower"; "ns/foo"]%string.
Proof.
  destruct (@diff_idempotent Scenario.collaborators Scenario.no_config Scenario.churn)
    as (st1 & Hrun1 & Hsecond); [discriminate|].
  assert (Hst1 : st1 = @diff_state Scenario.collaborators Scenario.churn).
  { rewrite OnUpdate_initialized in Hrun1 by discriminate. congruence. }
  subst st1. destruct Hsecond as (st2 & Hrun2 & Hviews).
  - vm_compute. discriminate.
  - intros i [<- | []]. vm_compute. reflexivity.
  - exists (@diff_state Scenario.collaborators Scenario.churn), st2.
    split; [exact Hrun1|]. split; [exact Hrun2|]. split; [exact Hviews|].
    vm_compute. reflexivity.
Defined.

(** C9 (no escalation).  Whatever the convergence of each entity does,
    [Reload] returns the empty byte slice, [true] and a nil error.
    Whatever the builder returns for each spec, [OnUpdate] returns a nil
    error whenever the bootstrap is behind it or succeeds, and it never
    returns an error that is not nil. *)
Theorem local_failures_do_not_escalate `{Collaborators} :
  (forall data st, exists st', Reload data st = Returns (([], true, None), st')) /\
  (forall cfg st,
     ALBIngresses (this st) <> [] \/ (exists st1, assembleIngresses st = Returns (tt, st1)) ->
     exists st', OnUpdate cfg st = Returns (None, st')) /\
  (forall cfg st err st', OnUpdate cfg st = Returns (err, st') -> err = None).
Proof.
  split; [|split].
  - intros data st. eexists. apply Reload_eq.
  - intros cfg st [Hinit | [st1 Hboot]].
    + eexists. now apply OnUpdate_initialized.
    + destruct (ALBIngresses (this st)) as [|e l] eqn:Hset.
      * exists (diff_state st1).
        rewrite OnUpdate_eq, bootstrap_phase_nil, Hboot by assumption. reflexivity.
      * eexists. apply OnUpdate_initialized. rewrite Hset. discriminate.
  - intros cfg st err st' Hrun. rewrite OnUpdate_eq in Hrun.
    destruct (bootstrap_phase st) as [[[] st1] | c msg | msg]; congruence.
Qed.

(** C9 on a cycle whose only spec fails port resolution (the entity is
    tainted) and on the dispatch that follows (the convergence of the
    tainted entity fails). *)
Lemma local_failures_do_not_escalate_witness :
  (exists st',
     @OnUpdate Scenario.collaborators Scenario.no_config Scenario.unresolved_spec
       = Returns (None, st')) /\
  (exists st',
     @Reload Scenario.collaborators [] Scenario.bar_tracked = Returns (([], true, None), st')).
Proof.
  split.
  - apply (proj1 (proj2 (@local_failures_do_not_escalate Scenario.collaborators))).
    left. discriminate.
  - apply (proj1 (@local_failures_do_not_escalate Scenario.collaborators)).
Defined.

(** C10 (cluster name check).  [main] exits before [ic.Start()] whenever
    the configured cluster name is empty or longer than 11 bytes, and
    reaches [ic.Start()] exactly for names of 1 to 11 bytes.  Counted in
    characters the claim holds as well: a name of more than 11
    characters has more than 11 bytes, so the process exits, and a name
    the controller starts with is not empty and has at most 11
    characters. *)
Theorem cluster_name_check `{IngressCore} (env : Environ) :
  (ClusterName (main_controller env) = ""%string \/
   (11 < String.length (ClusterName (main_controller env)))%nat ->
   exists msg, main env = ExitsBeforeStart 1 msg) /\
  ((11 < utf8_characters (ClusterName (main_controller env)))%nat ->
   exists msg, main env = ExitsBeforeStart 1 msg) /\
  (forall ac,
     main env = Starts ac ->
     ac = main_controller env /\
     (1 <= String.length (ClusterName ac) <= 11)%nat /\
     ClusterName ac <> ""%string /\
     (utf8_characters (ClusterName ac) <= 11)%nat) /\
  ((1 <= String.length (ClusterName (main_controller env)) <= 11)%nat ->
   main env = Starts (main_controller env)).
Proof.
  unfold main.
  pose proof (utf8_characters_le (ClusterName (main_controller env))) as Hchars.
  destruct (String.eqb (ClusterName (main_controller env)) "") eqn:Hempty.
  - apply String.eqb_eq in Hempty. rewrite Hempty in *. simpl in *.
    repeat split; eauto; try discriminate; lia.
  - apply String.eqb_neq in Hempty.
    assert (Hlen : (1 <= String.length (ClusterName (main_controller env)))%nat).
    { destruct (ClusterName (main_controller env)); [congruence | simpl; lia]. }
    destruct (11 <? Z.of_nat (String.length (ClusterName (main_controller env)))) eqn:Hlong.
    + apply Z.ltb_lt in Hlong. repeat split; eauto; try discriminate; lia.
    + apply Z.ltb_ge in Hlong. split; [|split; [|split]].
      * intros [Hname | Hlt]; [contradiction | lia].
      * lia.
      * intros ac Hstart. injection Hstart as <-. repeat split; try assumption; lia.
      * reflexivity.
Qed.

(** C10 on three configured names: none, one of 18 bytes, one of 3. *)
Lemma cluster_name_check_witness :
  (exists msg, @main (Scenario.ingress_core "") Scenario.no_env = ExitsBeforeStart 1 msg) /\
  (exists msg,
     @main (Scenario.ingress_core "production-cluster") Scenario.no_env
       = ExitsBeforeStart 1 msg) /\
  @main (Scenario.ingress_core "k8s") Scenario.no_env
    = Starts (@main_controller (Scenario.ingress_core "k8s") Scenario.no_env).
Proof.
  split; [|split].
  - apply (proj1 (@cluster_name_check (Scenario.ingress_core "") Scenario.no_env)).
    left. reflexivity.
  - apply (proj1 (@cluster_name_check (Scenario.ingress_core "production-cluster")
                    Scenario.no_env)).
    right. simpl. lia.
  - apply (proj2 (proj2 (proj2 (@cluster_name_check (Scenario.ingress_core "k8s")
                                  Scenario.no_env)))).
    simpl. lia.
Defined.

(** * Further properties of the controller *)

(** ** The bootstrap, entity by entity *)





Section BootstrapPure.

Context `{Collaborators}.

Lemma assembleIngresses_go_eq (lb : LoadBalancer) (l : ALBIngressesT) (st0 : State) :
  assembleIngresses_go lb (with_ALBIngresses l st0) =
  match NewALBIngressFromLoadBalancer (ClusterName (this st0)) lb with
  | None => Returns (tt, with_ALBIngresses l st0)
  | Some a =>
      match merge l a with
      | Some l' => Returns (tt, with_ALBIngresses l' st0)
      | None => Panics "index out of range"
      end
  end.
Proof.
  unfold assembleIngresses_go. rewrite bind_eq. unfold get_ac. cbv beta iota.
  cbn [with_ALBIngresses this set_ALBIngresses ClusterName ALBIngresses].
  destruct (NewALBIngressFromLoadBalancer (ClusterName (this st0)) lb) as [a|];
    [|reflexivity].
  unfold merge. destruct (0 <=? find l a); [|reflexivity].
  destruct (l !! Z.to_nat (find l a)) as [b|]; [|reflexivity].
  destruct (LoadBalancers b); reflexivity.
Qed.

Lemma for_each_go_eq (lbs : list LoadBalancer) (l : ALBIngressesT) (st0 : State) :
  for_each assembleIngresses_go lbs (with_ALBIngresses l st0) =
  match merge_all l (discovered (ClusterName (this st0)) lbs) with
  | Some l' => Returns (tt, with_ALBIngresses l' st0)
  | None => Panics "index out of range"
  end.
Proof.
  revert l. induction lbs as [|lb lbs IH]; intros l; [reflexivity|].
  cbn [for_each]. rewrite bind_eq, assembleIngresses_go_eq.
  unfold discovered. rewrite omap_cons. fold (discovered (ClusterName (this st0)) lbs).
  destruct (NewALBIngressFromLoadBalancer (ClusterName (this st0)) lb) as [a|].
  - cbn [merge_all]. destruct (merge l a) as [l'|]; [apply IH | reflexivity].
  - apply IH.
Qed.

(** [assembleIngresses] is the fold of [merge] over the entities built for
    the listing, started from the empty list. *)
Lemma assembleIngresses_merge_all (st : State) :
  assembleIngresses st =
  match DescribeLoadBalancers (awsutil st) (ClusterName (this st)) with
  | Err err => Exits 255 err
  | Ok lbs =>
      match merge_all [] (discovered (ClusterName (this st)) lbs) with
      | Some l => Returns (tt, bootstrap_end (with_ALBIngresses l (bootstrap_start st)))
      | None => Panics "index out of range"
      end
  end.
Proof.
  rewrite assembleIngresses_eq.
  destruct (DescribeLoadBalancers (awsutil st) (ClusterName (this st))) as [lbs|];
    [|reflexivity].
  change (bootstrap_start st) with (with_ALBIngresses [] (bootstrap_start st)).
  rewrite for_each_go_eq.
  change (ClusterName (this (bootstrap_start st))) with (ClusterName (this st)).
  destruct (merge_all [] (discovered (ClusterName (this st)) lbs)); reflexivity.
Qed.

End BootstrapPure.


















(** ** What a diff cycle changes and what it leaves alone *)

Section Frame.

Context `{Collaborators}.

Lemma assembleIngresses_frame (st st1 : State) :
  assembleIngresses st = Returns (tt, st1) ->
  awsutil st1 = awsutil st /\
  storeLister (this st1) = storeLister (this st) /\
  ClusterName (this st1) = ClusterName (this st) /\
  IngressClass (this st1) = IngressClass (this st).
Proof.
  rewrite assembleIngresses_merge_all.
  destruct (DescribeLoadBalancers (awsutil st) (ClusterName (this st))) as [lbs|];
    [|discriminate].
  destruct (merge_all [] (discovered (ClusterName (this st)) lbs)); [|discriminate].
  intros [= <-]. repeat split.
Qed.

Lemma bootstrap_phase_frame (st st1 : State) :
  bootstrap_phase st = Returns (tt, st1) ->
  awsutil st1 = awsutil st /\
  storeLister (this st1) = storeLister (this st) /\
  ClusterName (this st1) = ClusterName (this st) /\
  IngressClass (this st1) = IngressClass (this st).
Proof.
  destruct (ALBIngresses (this st)) as [|e l] eqn:Hset.
  - rewrite bootstrap_phase_nil by assumption. apply assembleIngresses_frame.
  - rewrite bootstrap_phase_initialized by (rewrite Hset; discriminate).
    intros [= <-]. repeat split.
Qed.

Lemma OnUpdate_returns_inv (cfg : Configuration) (st st2 : State) (r : option error) :
  OnUpdate cfg st = Returns (r, st2) ->
  exists st1, bootstrap_phase st = Returns (tt, st1) /\ r = None /\ st2 = diff_state st1.
Proof.
  rewrite OnUpdate_eq.
  destruct (bootstrap_phase st) as [[[] st1] | |]; try discriminate.
  intros [= <- <-]. eauto.
Qed.

Lemma length_omap_le {A B} (f : A -> option B) (l : list A) :
  (length (omap f l) <= length l)%nat.
Proof.
  induction l as [|a l IH]; [simpl; lia|].
  rewrite omap_cons. destruct (f a); simpl; lia.
Qed.

Lemma length_deletable_of_le (newList old : ALBIngressesT) :
  (length (deletable_of newList old) <= length old)%nat.
Proof.
  unfold deletable_of. rewrite length_map. apply List.filter_length_le.
Qed.

End Frame.

(** X5 (what the next set is made of).  When a diff cycle returns, an
    entity is in the next tracked set exactly when it was built in this
    cycle from an ingress of the store that passes the class filter
    (tainted when the builder also returned an error), or it is the
    stripped copy of an untainted entity of the previous set that holds a
    load balancer and whose identity the newly built set lacks. *)
Theorem next_set_members `{Collaborators}
    (cfg : Configuration) (st st1 st2 : State) (r : option error) (x : ALBIngress) :
  bootstrap_phase st = Returns (tt, st1) ->
  OnUpdate cfg st = Returns (r, st2) ->
  In x (ALBIngresses (this st2)) <->
  (exists i e err,
     In i (IngressStore (storeLister (this st1))) /\
     validIngress (this st1) i = true /\
     NewALBIngressFromIngress i (this st1) = (Some e, err) /\
     x = match err with Some _ => set_tainted true e | None => e end) \/
  (exists e,
     In e (ALBIngresses (this st1)) /\
     tainted e = false /\
     LoadBalancers e <> [] /\
     ~ In (identity e) (map identity (newSet (this st1))) /\
     x = StripDesiredState e).
Proof.
  intros Hboot Hrun. rewrite OnUpdate_eq, Hboot in Hrun. injection Hrun as _ <-.
  cbn [diff_state this set_ALBIngresses ALBIngresses]. unfold nextSet.
  rewrite in_app_iff, in_deletable_of, newSet_eq, in_omap. split.
  - intros [(i & Hi & Hbuilt) | (e & He & Hm & ->)]; [left | right].
    + unfold built in Hbuilt.
      destruct (validIngress (this st1) i) eqn:Hvalid; [|discriminate].
      destruct (NewALBIngressFromIngress i (this st1)) as [[e|] err] eqn:Hnew;
        [|discriminate].
      exists i, e, err. repeat split; try assumption.
      destruct err; congruence.
    + apply marked_for_teardown_true in Hm. destruct Hm as (Ht & Habsent & Hlbs).
      apply find_absent in Habsent.
      exists e. repeat split; assumption.
  - intros [(i & e & err & Hi & Hvalid & Hnew & ->) | (e & He & Ht & Hlbs & Habsent & ->)];
      [left | right].
    + exists i. split; [assumption|]. unfold built. rewrite Hvalid, Hnew.
      destruct err; reflexivity.
    + exists e. split; [assumption|]. split; [|reflexivity].
      apply marked_for_teardown_true.
      repeat split; try assumption. now apply find_absent.
Qed.

(** X6 (an update is not a deletion).  If every untainted entity of the
    previous set that holds a load balancer has its identity in the newly
    built set, the diff cycle marks nothing for teardown: it returns and
    the next tracked set is exactly the newly built set. *)
Theorem no_teardown_when_identities_remain `{Collaborators}
    (cfg : Configuration) (st st1 : State) :
  bootstrap_phase st = Returns (tt, st1) ->
  (forall e, In e (ALBIngresses (this st1)) -> tainted e = false -> LoadBalancers e <> [] ->
             In (identity e) (map identity (newSet (this st1)))) ->
  exists st2,
    OnUpdate cfg st = Returns (None, st2) /\
    ALBIngresses (this st2) = newSet (this st1).
Proof.
  intros Hboot Hremain. exists (diff_state st1).
  split; [rewrite OnUpdate_eq, Hboot; reflexivity|].
  cbn [diff_state this set_ALBIngresses ALBIngresses]. unfold nextSet, deletable_of.
  rewrite filter_none; [simpl; now rewrite app_nil_r|].
  intros e He. destruct (marked_for_teardown (newSet (this st1)) e) eqn:Hm; [|reflexivity].
  apply marked_for_teardown_true in Hm. destruct Hm as (Ht & Habsent & Hlbs).
  apply find_absent in Habsent. exfalso. apply Habsent. now apply Hremain.
Qed.

(** X7 (metrics of a diff cycle).  When a diff cycle returns, the gauge
    [ManagedIngresses] is the number of tracked entities, which is at most
    the number of ingresses in the store plus the number of entities
    tracked before the diff; [OnUpdateCount] has grown by one and
    [ReloadCount] is unchanged, whether or not the bootstrap ran. *)
Theorem OnUpdate_metrics `{Collaborators}
    (cfg : Configuration) (st st1 st2 : State) (r : option error) :
  bootstrap_phase st = Returns (tt, st1) ->
  OnUpdate cfg st = Returns (r, st2) ->
  ManagedIngresses (awsutil st2) = len (ALBIngresses (this st2)) /\
  len (ALBIngresses (this st2)) <=
    len (IngressStore (storeLister (this st))) + len (ALBIngresses (this st1)) /\
  OnUpdateCount (awsutil st2) = OnUpdateCount (awsutil st) + 1 /\
  ReloadCount (awsutil st2) = ReloadCount (awsutil st).
Proof.
  intros Hboot Hrun. rewrite OnUpdate_eq, Hboot in Hrun. injection Hrun as _ <-.
  destruct (bootstrap_phase_frame st st1 Hboot) as (Haws & Hstore & _ & _).
  cbn [diff_state this awsutil set_ALBIngresses ALBIngresses ManagedIngresses OnUpdateCount
       ReloadCount].
  rewrite Haws, <- Hstore. repeat split.
  unfold nextSet, len. rewrite length_app, newSet_eq.
  pose proof (length_omap_le (built (this st1)) (IngressStore (storeLister (this st1)))).
  pose proof (length_deletable_of_le
                (omap (built (this st1)) (IngressStore (storeLister (this st1))))
                (ALBIngresses (this st1))).
  lia.
Qed.

(** X8 (a diff cycle keeps the configuration).  When a diff cycle
    returns, the store listers, the cluster name and the ingress class
    of the controller, and the cloud it talks to, are the ones it started
    with: the cycle only replaces the tracked set. *)
Theorem OnUpdate_keeps_configuration `{Collaborators}
    (cfg : Configuration) (st st2 : State) (r : option error) :
  OnUpdate cfg st = Returns (r, st2) ->
  storeLister (this st2) = storeLister (this st) /\
  ClusterName (this st2) = ClusterName (this st) /\
  IngressClass (this st2) = IngressClass (this st) /\
  DescribeLoadBalancers (awsutil st2) = DescribeLoadBalancers (awsutil st).
Proof.
  intros Hrun. destruct (OnUpdate_returns_inv cfg st st2 r Hrun) as (st1 & Hboot & _ & ->).
  destruct (bootstrap_phase_frame st st1 Hboot) as (Haws & Hstore & Hcluster & Hclass).
  cbn [diff_state this awsutil set_ALBIngresses storeLister ClusterName IngressClass
       DescribeLoadBalancers].
  now rewrite Haws, Hstore, Hcluster, Hclass.
Qed.

(** X9 (the deletion pass only strips).  [ingressToDelete] always returns.
    It leaves the metrics, the log and the configuration alone, and in
    the old list it keeps every identity, load-balancer collection and
    taint flag in place; an entity's desired state is either kept or
    cleared.  Every entity it returns is an element of the old list as
    the pass leaves it, without desired state, untainted, with a load
    balancer, and with an identity the new list lacks. *)
Theorem ingressToDelete_only_strips (newList : ALBIngressesT) (st : State) :
  exists deletable st',
    ingressToDelete newList st = Returns (deletable, st') /\
    awsutil st' = awsutil st /\ logged st' = logged st /\
    storeLister (this st') = storeLister (this st) /\
    ClusterName (this st') = ClusterName (this st) /\
    IngressClass (this st') = IngressClass (this st) /\
    map identity (ALBIngresses (this st')) = map identity (ALBIngresses (this st)) /\
    map LoadBalancers (ALBIngresses (this st')) = map LoadBalancers (ALBIngresses (this st)) /\
    map tainted (ALBIngresses (this st')) = map tainted (ALBIngresses (this st)) /\
    Forall2 (fun e e' => desiredState e' = desiredState e \/ desiredState e' = None)
            (ALBIngresses (this st)) (ALBIngresses (this st')) /\
    (forall d, In d deletable ->
               In d (ALBIngresses (this st')) /\ desiredState d = None /\
               tainted d = false /\ LoadBalancers d <> [] /\
               ~ In (identity d) (map identity newList)).
Proof.
  eexists _, _. split; [apply ingressToDelete_eq|].
  cbn [this awsutil logged set_ALBIngresses storeLister ClusterName IngressClass ALBIngresses].
  unfold stripped_in_place. rewrite !map_map.
  do 5 (split; [reflexivity|]).
  split; [apply map_ext; intros e; now destruct (marked_for_teardown newList e)|].
  split; [apply map_ext; intros e; now destruct (marked_for_teardown newList e)|].
  split; [apply map_ext; intros e; now destruct (marked_for_teardown newList e)|].
  split.
  - induction (ALBIngresses (this st)) as [|e l IH]; simpl; constructor; [|exact IH].
    destruct (marked_for_teardown newList e); simpl; auto.
  - intros d Hd. apply in_deletable_of in Hd. destruct Hd as (e & He & Hm & ->).
    split; [apply in_map_iff; exists e; now rewrite Hm|].
    apply marked_for_teardown_true in Hm. destruct Hm as (Ht & Habsent & Hlbs).
    apply find_absent in Habsent. simpl. auto.
Qed.

(** X10 (where taint comes from).  When a diff cycle returns, an entity of
    the next tracked set is tainted exactly when it was built in this
    cycle, from an ingress of the store that passes the class filter, and
    the builder returned an error with it or returned it tainted.  No
    taint is carried over from the previous set, and a nil error never
    clears the flag the builder set. *)
Theorem taint_comes_from_this_cycle `{Collaborators}
    (cfg : Configuration) (st st1 st2 : State) (r : option error) (x : ALBIngress) :
  bootstrap_phase st = Returns (tt, st1) ->
  OnUpdate cfg st = Returns (r, st2) ->
  In x (ALBIngresses (this st2)) /\ tainted x = true <->
  exists i e err,
    In i (IngressStore (storeLister (this st1))) /\
    validIngress (this st1) i = true /\
    NewALBIngressFromIngress i (this st1) = (Some e, err) /\
    (err <> None \/ tainted e = true) /\
    x = set_tainted true e.
Proof.
  intros Hboot Hrun. rewrite OnUpdate_eq, Hboot in Hrun. injection Hrun as _ <-.
  cbn [diff_state this set_ALBIngresses ALBIngresses]. unfold nextSet.
  rewrite in_app_iff, in_deletable_of, newSet_eq, in_omap. split.
  - intros [[(i & Hi & Hbuilt) | (e & He & Hm & ->)] Htainted].
    + unfold built in Hbuilt.
      destruct (validIngress (this st1) i) eqn:Hvalid; [|discriminate].
      destruct (NewALBIngressFromIngress i (this st1)) as [[e|] err] eqn:Hnew;
        [|discriminate].
      exists i, e, err. repeat split; try assumption.
      * destruct err; [left; discriminate | right; congruence].
      * destruct err; [congruence|]. injection Hbuilt as <-.
        destruct e. simpl in Htainted. subst. reflexivity.
    + apply marked_for_teardown_true in Hm. simpl in Htainted. destruct Hm. congruence.
  - intros (i & e & err & Hi & Hvalid & Hnew & Hcause & ->). split; [|reflexivity].
    left. exists i. split; [assumption|]. unfold built. rewrite Hvalid, Hnew.
    destruct err; [reflexivity|]. destruct Hcause as [Herr | Ht]; [congruence|].
    destruct e. simpl in Ht. subst. reflexivity.
Qed.


(** ** Counters over a run *)

Lemma cycle_metrics `{Collaborators} (n : Notification) (st st' : State) :
  cycle n st = Returns (tt, st') ->
  OnUpdateCount (awsutil st') = OnUpdateCount (awsutil st) + 1 /\
  ReloadCount (awsutil st') = ReloadCount (awsutil st) + 1 /\
  ManagedIngresses (awsutil st') = len (ALBIngresses (this st')).
Proof.
  unfold cycle.
  destruct (OnUpdate (seen_config n) (arrive n st)) as [[r st1] | |] eqn:Hupd; try discriminate.
  rewrite Reload_eq. intros [= <-].
  destruct (OnUpdate_returns_inv _ _ _ _ Hupd) as (st0 & Hboot & _ & ->).
  destruct (bootstrap_phase_frame _ _ Hboot) as (Haws & _).
  cbn [diff_state this awsutil set_ALBIngresses ALBIngresses ManagedIngresses OnUpdateCount
       ReloadCount].
  rewrite Haws. cbn [arrive awsutil OnUpdateCount ReloadCount].
  repeat split. unfold len. now rewrite length_map.
Qed.

(** X12 (the counters count cycles).  After the [k]-th completed cycle of
    a run (a diff followed by the dispatch), [OnUpdateCount] and
    [ReloadCount] have each grown by [k], and [ManagedIngresses] is the
    number of entities tracked at that point. *)
Theorem counters_count_cycles `{Collaborators}
    (ns : list Notification) (st s : State) (k : nat) :
  cycles ns st !! k = Some s ->
  OnUpdateCount (awsutil s) = OnUpdateCount (awsutil st) + Z.of_nat (S k) /\
  ReloadCount (awsutil s) = ReloadCount (awsutil st) + Z.of_nat (S k) /\
  ManagedIngresses (awsutil s) = len (ALBIngresses (this s)).
Proof.
  revert st k. induction ns as [|n ns IH]; intros st k; simpl; [discriminate|].
  destruct (cycle n st) as [[[] st'] | |] eqn:Hcycle; try discriminate.
  apply cycle_metrics in Hcycle. destruct Hcycle as (Hupd & Hrel & Hgauge).
  destruct k as [|k]; simpl.
  - intros [= <-]. repeat split; [rewrite Hupd | rewrite Hrel | exact Hgauge]; lia.
  - intros Hs. destruct (IH st' k Hs) as (Hupd' & Hrel' & Hgauge').
    repeat split; [rewrite Hupd', Hupd | rewrite Hrel', Hrel | exact Hgauge']; lia.
Qed.

(** ** The resolver and the start-up, read backwards *)

Lemma GetServiceNodePort_range_some (ports : list ServicePortT) (backendPort nodePort : Z) :
  GetServiceNodePort_range ports backendPort = Some nodePort ->
  exists pre p post,
    ports = pre ++ p :: post /\
    (forall q, In q pre -> Port q <> backendPort) /\
    Port p = backendPort /\ NodePort p = nodePort.
Proof.
  induction ports as [|q ports IH]; simpl; [discriminate|].
  destruct (Port q =? backendPort) eqn:Hq.
  - apply Z.eqb_eq in Hq. intros [= <-]. exists [], q, ports. simpl. tauto.
  - apply Z.eqb_neq in Hq. intros Hrest.
    destruct (IH Hrest) as (pre & p & post & -> & Hpre & Hp & Hnp).
    exists (q :: pre), p, post. simpl. repeat split; try assumption.
    intros x [<- | Hx]; auto.
Qed.

Lemma GetServiceNodePort_range_none_inv (ports : list ServicePortT) (backendPort : Z) :
  GetServiceNodePort_range ports backendPort = None ->
  forall p, In p ports -> Port p <> backendPort.
Proof.
  induction ports as [|q ports IH]; simpl; [intros _ p []|].
  destruct (Port q =? backendPort) eqn:Hq; [discriminate|].
  apply Z.eqb_neq in Hq. intros Hrest p [<- | Hp]; auto.
Qed.

(** X13 (what a result of the resolver means).  A node port returned by
    [GetServiceNodePort] is the node port of a declared port of a service
    of type NodePort stored under the key, namely of the first declared
    port with the requested number.  An error is one of three messages,
    and each tells its cause: no service under the key, a service of
    another type, or no declared port with the requested number. *)
Theorem GetServiceNodePort_result_inv
    (ac : ALBController) (serviceKey : string) (backendPort : Z) :
  (forall nodePort,
     GetServiceNodePort ac serviceKey backendPort = Ok nodePort ->
     exists item pre p post,
       ServiceStore (storeLister ac) !! serviceKey = Some item /\
       Spec_Type item = ServiceTypeNodePort /\
       Spec_Ports item = pre ++ p :: post /\
       (forall q, In q pre -> Port q <> backendPort) /\
       Port p = backendPort /\ NodePort p = nodePort) /\
  (forall msg,
     GetServiceNodePort ac serviceKey backendPort = Err msg ->
     (msg = "Unable to find the " +:+ serviceKey +:+ " service" /\
      ServiceStore (storeLister ac) !! serviceKey = None) \/
     (msg = serviceKey +:+ " service is not of type NodePort" /\
      exists item, ServiceStore (storeLister ac) !! serviceKey = Some item /\
                   Spec_Type item <> ServiceTypeNodePort) \/
     (msg = "Unable to find a port defined in the " +:+ serviceKey +:+ " service" /\
      exists item, ServiceStore (storeLister ac) !! serviceKey = Some item /\
                   Spec_Type item = ServiceTypeNodePort /\
                   forall p, In p (Spec_Ports item) -> Port p <> backendPort)).
Proof.
  unfold GetServiceNodePort.
  destruct (ServiceStore (storeLister ac) !! serviceKey) as [item|].
  - destruct (String.eqb (Spec_Type item) ServiceTypeNodePort) eqn:Htype; simpl.
    + apply String.eqb_eq in Htype.
      destruct (GetServiceNodePort_range (Spec_Ports item) backendPort) as [np|] eqn:Hports.
      * split; [|discriminate]. intros nodePort [= <-].
        destruct (GetServiceNodePort_range_some _ _ _ Hports)
          as (pre & p & post & Hsplit & Hpre & Hp & Hnp).
        exists item, pre, p, post. repeat split; assumption.
      * split; [discriminate|]. intros msg [= <-]. right. right.
        split; [reflexivity|]. exists item. repeat split; try assumption.
        now apply GetServiceNodePort_range_none_inv.
    + apply String.eqb_neq in Htype. split; [discriminate|].
      intros msg [= <-]. right. left. split; [reflexivity|]. eauto.
  - split; [discriminate|]. intros msg [= <-]. left. auto.
Qed.

(** X14 (the length check counts bytes).  [main] exits with the message
    about a missing name exactly when the configured cluster name is
    empty, and with the message about 11 characters exactly when the name
    is longer than 11 bytes; it exits with no other status or message.
    So a name of at most 11 characters whose UTF-8 encoding is longer than
    11 bytes is refused with the message about 11 characters. *)
Theorem main_exit_causes `{IngressCore} (env : Environ) :
  (main env = ExitsBeforeStart 1 "A cluster name must be defined" <->
   ClusterName (main_controller env) = ""%string) /\
  (main env = ExitsBeforeStart 1 "Cluster name must be 11 characters or less" <->
   (11 < String.length (ClusterName (main_controller env)))%nat) /\
  (forall status msg,
     main env = ExitsBeforeStart status msg ->
     status = 1 /\
     (msg = "A cluster name must be defined"%string \/
      msg = "Cluster name must be 11 characters or less"%string)) /\
  ((utf8_characters (ClusterName (main_controller env)) <= 11)%nat ->
   (11 < String.length (ClusterName (main_controller env)))%nat ->
   main env = ExitsBeforeStart 1 "Cluster name must be 11 characters or less").
Proof.
  unfold main.
  destruct (String.eqb (ClusterName (main_controller env)) "") eqn:Hempty.
  - apply String.eqb_eq in Hempty. split; [|split; [|split]].
    + split; [intros _; exact Hempty | reflexivity].
    + split; [discriminate|]. rewrite Hempty. simpl. lia.
    + intros status msg [= <- <-]. split; [reflexivity | now left].
    + rewrite Hempty. simpl. lia.
  - apply String.eqb_neq in Hempty.
    destruct (11 <? Z.of_nat (String.length (ClusterName (main_controller env)))) eqn:Hlong.
    + apply Z.ltb_lt in Hlong. split; [|split; [|split]].
      * split; [discriminate | contradiction].
      * split; [intros _; lia | reflexivity].
      * intros status msg [= <- <-]. split; [reflexivity | now right].
      * reflexivity.
    + apply Z.ltb_ge in Hlong. split; [|split; [|split]].
      * split; [discriminate | contradiction].
      * split; [discriminate | lia].
      * discriminate.
      * lia.
Qed.

(** X15 (the diff does not merge).  Unlike the bootstrap, the loop of
    [OnUpdate] never looks an identity up before it appends: when two
    ingresses of the store build entities with the same identity, both
    are in the next tracked set, in the order of the store, and the
    identities of that set are not unique. *)
Theorem diff_does_not_merge_duplicates `{Collaborators}
    (cfg : Configuration) (st st1 st2 : State) (r : option error)
    (s1 : list Ingress) (i : Ingress) (s2 : list Ingress) (j : Ingress) (s3 : list Ingress)
    (x y : ALBIngress) :
  bootstrap_phase st = Returns (tt, st1) ->
  OnUpdate cfg st = Returns (r, st2) ->
  IngressStore (storeLister (this st1)) = s1 ++ i :: s2 ++ j :: s3 ->
  built (this st1) i = Some x ->
  built (this st1) j = Some y ->
  identity x = identity y ->
  (exists l1 l2 l3, ALBIngresses (this st2) = l1 ++ x :: l2 ++ y :: l3) /\
  ~ unique_identities (ALBIngresses (this st2)).
Proof.
  intros Hboot Hrun Hstore Hx Hy Hid. rewrite OnUpdate_eq, Hboot in Hrun.
  injection Hrun as _ <-. cbn [diff_state this set_ALBIngresses ALBIngresses].
  assert (Hnext : exists l1 l2 l3, nextSet (this st1) = l1 ++ x :: l2 ++ y :: l3).
  { exists (omap (built (this st1)) s1), (omap (built (this st1)) s2),
      (omap (built (this st1)) s3 ++
       deletable_of (newSet (this st1)) (ALBIngresses (this st1))).
    unfold nextSet at 1. rewrite newSet_eq at 1. rewrite Hstore.
    rewrite omap_app, omap_cons, Hx, omap_app, omap_cons, Hy.
    rewrite <- app_assoc, <- app_comm_cons. do 2 f_equal.
    rewrite <- app_assoc, <- app_comm_cons. reflexivity. }
  split; [exact Hnext|].
  destruct Hnext as (l1 & l2 & l3 & ->). unfold unique_identities.
  rewrite map_app. simpl. intros Hunique. apply NoDup_remove_2 in Hunique.
  apply Hunique. rewrite in_app_iff, map_app, in_app_iff. right. right.
  simpl. left. now symmetry.
Qed.

(** ** The further properties on the scenarios *)





Lemma churn_returns :
  @OnUpdate Scenario.collaborators Scenario.no_config Scenario.churn
    = Returns (None, @diff_state Scenario.collaborators Scenario.churn).
Proof. apply OnUpdate_initialized. discriminate. Qed.

(** X5 on [churn]: the stripped [foo] is in the next set, as the copy of
    an entity of the previous set. *)
Lemma next_set_members_witness :
  In (StripDesiredState Scenario.foo)
     (ALBIngresses (this (@diff_state Scenario.collaborators Scenario.churn))).
Proof.
  apply (proj2 (@next_set_members Scenario.collaborators Scenario.no_config
                  Scenario.churn Scenario.churn _ None (StripDesiredState Scenario.foo)
                  eq_refl churn_returns)).
  right. exists Scenario.foo.
  split; [simpl; tauto|]. split; [reflexivity|]. split; [discriminate|].
  split; [|reflexivity]. vm_compute. intros [Heq | []]. discriminate.
Defined.

(** X6 on [steady]: the spec of the tracked entity is still in the store,
    and the next set is the newly built set. *)
Lemma no_teardown_when_identities_remain_witness :
  exists st2,
    @OnUpdate Scenario.collaborators Scenario.no_config Scenario.steady
      = Returns (None, st2) /\
    ALBIngresses (this st2) = @newSet Scenario.collaborators (this Scenario.steady).
Proof.
  apply (@no_teardown_when_identities_remain Scenario.collaborators Scenario.no_config
           Scenario.steady Scenario.steady eq_refl).
  intros e [<- | []] _ _. vm_compute. left. reflexivity.
Defined.

(** X7 on [churn]: two entities tracked, and the gauge says two. *)
Lemma OnUpdate_metrics_witness :
  ManagedIngresses (awsutil (@diff_state Scenario.collaborators Scenario.churn)) = 2 /\
  OnUpdateCount (awsutil (@diff_state Scenario.collaborators Scenario.churn)) = 1.
Proof.
  destruct (@OnUpdate_metrics Scenario.collaborators Scenario.no_config
              Scenario.churn Scenario.churn _ None eq_refl churn_returns)
    as (Hgauge & _ & Hcount & _).
  split; [rewrite Hgauge | rewrite Hcount]; reflexivity.
Defined.

(** X8 on [churn]: the store the controller sees is unchanged. *)
Lemma OnUpdate_keeps_configuration_witness :
  storeLister (this (@diff_state Scenario.collaborators Scenario.churn))
    = storeLister (this Scenario.churn).
Proof.
  apply (@OnUpdate_keeps_configuration Scenario.collaborators Scenario.no_config
           Scenario.churn _ None churn_returns).
Defined.

(** X10 on [churn]: the entity of [ns/lower] is tainted because its port
    resolution failed in this cycle. *)
Lemma taint_comes_from_this_cycle_witness :
  exists x,
    In x (ALBIngresses (this (@diff_state Scenario.collaborators Scenario.churn))) /\
    tainted x = true /\ identity x = "ns/lower"%string.
Proof.
  destruct (Scenario.build Scenario.lower_ingress (this Scenario.churn)) as [[e|] err] eqn:Hbuild;
    [|discriminate].
  exists (set_tainted true e).
  destruct (proj2 (@taint_comes_from_this_cycle Scenario.collaborators Scenario.no_config
                     Scenario.churn Scenario.churn _ None (set_tainted true e)
                     eq_refl churn_returns)) as [Hin Ht].
  - exists Scenario.lower_ingress, e, err.
    split; [simpl; tauto|]. split; [reflexivity|]. split; [exact Hbuild|].
    split; [|reflexivity]. left. injection Hbuild as _ <-. discriminate.
  - split; [exact Hin|]. split; [exact Ht|]. injection Hbuild as <- _. reflexivity.
Defined.


(** X15 on [twins]: both copies of [ns/lower] are tracked. *)
Lemma diff_does_not_merge_duplicates_witness :
  exists l1 x l2 y l3,
    ALBIngresses (this (@diff_state Scenario.collaborators Scenario.twins))
      = l1 ++ x :: l2 ++ y :: l3 /\
    identity x = "ns/lower"%string /\ identity y = "ns/lower"%string.
Proof.
  destruct (@built Scenario.collaborators (this Scenario.twins) Scenario.lower_ingress)
    as [x|] eqn:Hx; [|discriminate].
  assert (Hrun : @OnUpdate Scenario.collaborators Scenario.no_config Scenario.twins
                   = Returns (None, @diff_state Scenario.collaborators Scenario.twins)).
  { apply OnUpdate_initialized. discriminate. }
  destruct (proj1 (@diff_does_not_merge_duplicates Scenario.collaborators Scenario.no_config
                     Scenario.twins Scenario.twins
                     (@diff_state Scenario.collaborators Scenario.twins) None
                     [] Scenario.lower_ingress [] Scenario.lower_ingress [] x x
                     eq_refl Hrun eq_refl Hx Hx eq_refl))
    as (l1 & l2 & l3 & Hnext).
  exists l1, x, l2, x, l3. split; [exact Hnext|].
  injection Hx as <-. split; reflexivity.
Defined.

(** X12 on three cycles with one spec in the store: after the third,
    both counters stand at three. *)
Lemma counters_count_cycles_witness :
  exists s,
    @cycles Scenario.collaborators
            [Scenario.one_spec; Scenario.one_spec; Scenario.one_spec] Scenario.cold_empty
      !! 2%nat = Some s /\
    OnUpdateCount (awsutil s) = 3 /\ ReloadCount (awsutil s) = 3.
Proof.
  destruct (@cycles Scenario.collaborators
                    [Scenario.one_spec; Scenario.one_spec; Scenario.one_spec]
                    Scenario.cold_empty !! 2%nat) as [s|] eqn:Hs.
  - exists s. split; [reflexivity|].
    destruct (@counters_count_cycles Scenario.collaborators _ _ s 2%nat Hs)
      as (Hupd & Hrel & _).
    split; [rewrite Hupd | rewrite Hrel]; reflexivity.
  - exfalso. vm_compute in Hs. discriminate.
Defined.

(** X13 on the store with a NodePort service: the node port returned for
    port 80 belongs to a declared port 80 of the service. *)
Lemma GetServiceNodePort_result_inv_witness :
  exists item pre p post,
    ServiceStore (storeLister Scenario.with_services) !! "ns/web"%string = Some item /\
    Spec_Type item = ServiceTypeNodePort /\
    Spec_Ports item = pre ++ p :: post /\
    (forall q, In q pre -> Port q <> 80) /\
    Port p = 80 /\ NodePort p = 30080.
Proof.
  apply (proj1 (GetServiceNodePort_result_inv Scenario.with_services "ns/web" 80) 30080).
  reflexivity.
Defined.

(** X14 on a name of seven characters and fourteen bytes. *)
Lemma main_exit_causes_witness :
  utf8_characters "ééééééé" = 7%nat /\
  @main (Scenario.ingress_core "ééééééé") Scenario.no_env
    = ExitsBeforeStart 1 "Cluster name must be 11 characters or less".
Proof.
  split; [reflexivity|].
  apply (proj2 (proj2 (proj2 (@main_exit_causes (Scenario.ingress_core "ééééééé")
                                Scenario.no_env)))).
  - simpl. lia.
  - simpl. lia.
Defined.
